(** * Register-level model of the TPA2016 class-D amplifier driver

    Shallow embedding of [adafruit_tpa2016.py]: the [TPA2016] class, its
    bit-field declarations and its property getters and setters, over a
    mock I2C bus that keeps the device registers and records every bus
    transaction.

    Conventions.
    - Python integers are [Z]; the bit operations are those of [Z]
      ([Z.land], [Z.lor], [Z.lnot], [Z.shiftl], [Z.shiftr]), which agree
      with Python's on negative numbers (infinite two's complement).
    - Python floats are exact rationals [Q]: rounding, infinities and NaN
      are not modelled.  Every float computed by the driver on the inputs
      quantified over below for a round trip (multiples of one half) is a
      dyadic rational that binary floating point represents exactly.
    - A computation of the driver is a function from the bus to an outcome
      (a returned value or a raised exception) and the bus afterwards. *)

From Stdlib Require Import ZArith QArith Qround Qabs Lia String List Bool.
From stdpp Require Import base option gmap list.

Local Open Scope Z_scope.

(** ** The bus collaborator *)

(** One bus transaction: a byte read of a register or a byte write. *)
Inductive event : Type :=
| BusRead (reg byte : Z)
| BusWrite (reg byte : Z).

(** The mock bus: the 8-bit registers of the chip and the transactions
    performed so far, oldest first. *)
Record bus : Type := Bus { regs : gmap Z Z; log : list event }.

(** The byte a register holds (a register never written reads as 0). *)
Definition peek (b : bus) (reg : Z) : Z := default 0 (regs b !! reg).

(** The register an event is about. *)
Definition event_reg (e : event) : Z :=
  match e with BusRead r _ => r | BusWrite r _ => r end.

(** ** Outcomes and the driver monad *)

Inductive exn : Type :=
| ValueError (msg : string).

Inductive outcome (A : Type) : Type :=
| Return (a : A)
| Raise (e : exn).
Arguments Return {A} a.
Arguments Raise {A} e.

Definition M (A : Type) : Type := bus -> outcome A * bus.

Definition ret {A} (a : A) : M A := fun b => (Return a, b).

Definition raise {A} (e : exn) : M A := fun b => (Raise e, b).

Definition bind {A B} (m : M A) (k : A -> M B) : M B :=
  fun b =>
    match m b with
    | (Return a, b') => k a b'
    | (Raise e, b') => (Raise e, b')
    end.

Declare Scope drv_scope.
Delimit Scope drv_scope with drv.
Notation "x <- m ;; k" := (bind m (fun x => k))
  (at level 100, m at next level, right associativity) : drv_scope.
Notation "m ;;; k" := (bind m (fun _ => k))
  (at level 100, right associativity) : drv_scope.
Local Open Scope drv_scope.

(** Modelled from the spec: the bus-transaction primitive of the transport
    (adafruit_bus_device), [read(register_address) -> byte]. *)
Definition bus_read (reg : Z) : M Z :=
  fun b => (Return (peek b reg),
            Bus (regs b) (log b ++ [BusRead reg (peek b reg)])).

(** Modelled from the spec: the bus-transaction primitive of the transport
    (adafruit_bus_device), [write(register_address, byte)]. *)
Definition bus_write (reg byte : Z) : M unit :=
  fun b => (Return tt,
            Bus (<[reg := byte]> (regs b)) (log b ++ [BusWrite reg byte])).

(** The transactions a computation performs from a given bus. *)
Definition emits {A} (m : M A) (b : bus) (evs : list event) : Prop :=
  log (snd (m b)) = log b ++ evs.

(** ** Bit-field accessors (adafruit_register) *)

(** Bit-field descriptor [RWBits(num_bits, register_address, lowest_bit)]. *)
Record RWBits : Type := mkRWBits {
  num_bits : Z;
  register_address : Z;
  lowest_bit : Z
}.

Definition bit_mask (f : RWBits) : Z :=
  Z.shiftl (Z.ones (num_bits f)) (lowest_bit f).

(** Whether bit [i] of the register belongs to the field. *)
Definition in_field (f : RWBits) (i : Z) : bool :=
  (lowest_bit f <=? i) && (i <? lowest_bit f + num_bits f).

(** The bits of a register byte that belong to a field, shifted down. *)
Definition extract (f : RWBits) (byte : Z) : Z :=
  Z.shiftr (Z.land byte (bit_mask f)) (lowest_bit f).

(** The byte the accessor writes back: the bits of the field are cleared
    in the byte read, the shifted value is or-ed in as it is, not reduced to
    the width of the field, and the low eight bits are kept
    ([reg &= ~mask; reg |= value << lowest_bit; reg & 0xFF]).  The byte
    read has eight bits, so keeping the low eight bits of the result is
    keeping those of the shifted value.  A value that fits the field
    replaces exactly the bits of the field; a wider or negative one also
    sets bits above the field. *)
Definition insert_field (f : RWBits) (byte value : Z) : Z :=
  Z.lor (Z.land byte (Z.lnot (bit_mask f)))
        (Z.land (Z.shiftl value (lowest_bit f)) 0xff).

(** Modelled from the spec: [RWBits.__get__] of adafruit_register, the
    bit-field accessor of section 4.1: one single-byte read of the
    register, then mask and shift to extract exactly the target bits. *)
Definition RWBits_get (f : RWBits) : M Z :=
  reg <- bus_read (register_address f);;
  ret (extract f reg).

(** Modelled from the spec: [RWBits.__set__] of adafruit_register, the
    bit-field accessor of section 4.1: one single-byte read of the
    register, insertion of the value at the target bits, one single-byte
    write of the modified byte; for a value that fits the field all bits
    outside the field are preserved.  Section 4.1 leaves a value that
    needs more bits than the width undefined: there the accessor is taken
    as the library has it, see [insert_field]. *)
Definition RWBits_set (f : RWBits) (value : Z) : M unit :=
  reg <- bus_read (register_address f);;
  bus_write (register_address f) (insert_field f reg value).

(** Single-bit descriptor [RWBit(register_address, bit)]. *)
Record RWBit : Type := mkRWBit {
  bit_register_address : Z;
  bit : Z
}.

Definition as_bits (f : RWBit) : RWBits :=
  mkRWBits 1 (bit_register_address f) (bit f).

(** Modelled from the spec: [RWBit.__get__] of adafruit_register, the
    single-bit accessor of section 4.2: the accessor of 4.1 at width 1,
    with boolean semantics. *)
Definition RWBit_get (f : RWBit) : M bool :=
  raw <- RWBits_get (as_bits f);;
  ret (negb (raw =? 0)).

(** Modelled from the spec: [RWBit.__set__] of adafruit_register, the
    single-bit accessor of section 4.2. *)
Definition RWBit_set (f : RWBit) (value : bool) : M unit :=
  RWBits_set (as_bits f) (if value then 1 else 0).

(** The value a field currently holds in the device, without touching the
    bus (what its getter would return). *)
Definition field_of (f : RWBits) (b : bus) : Z :=
  extract f (peek b (register_address f)).

(** ** Python numeric helpers *)

(** [int(x)] on a float: truncation toward zero. *)
Definition py_int (x : Q) : Z := Z.quot (Qnum x) (Z.pos (Qden x)).

(** Rounding to the nearest integer (halves upward), the [round] the prose
    of the specification uses for the limiter encoding. *)
Definition round_nearest (x : Q) : Z := Qfloor (x + (1 # 2)).

(** ** The driver: class [TPA2016] *)

Module TPA2016.

(** Compression ratio settings. *)
Definition COMPRESSION_1_1 : Z := 0x0.
Definition COMPRESSION_2_1 : Z := 0x1.
Definition COMPRESSION_4_1 : Z := 0x2.
Definition COMPRESSION_8_1 : Z := 0x3.

(** NoiseGate threshold settings. *)
Definition NOISEGATE_1 : Z := 0x0.
Definition NOISEGATE_4 : Z := 0x1.
Definition NOISEGATE_10 : Z := 0x2.
Definition NOISEGATE_20 : Z := 0x3.

Definition _attack_control : RWBits := mkRWBits 6 0x02 0.
Definition _release_control : RWBits := mkRWBits 6 0x03 0.
Definition _hold_time_control : RWBits := mkRWBits 6 0x04 0.
Definition _fixed_gain_control : RWBits := mkRWBits 6 0x05 0.
Definition _output_limiter_level : RWBits := mkRWBits 5 0x05 0.
Definition _max_gain : RWBits := mkRWBits 4 0x07 4.

Definition speaker_enable_r : RWBit := mkRWBit 0x01 7.
Definition speaker_enable_l : RWBit := mkRWBit 0x01 6.
Definition amplifier_shutdown : RWBit := mkRWBit 0x01 5.
Definition reset_fault_r : RWBit := mkRWBit 0x01 4.
Definition reset_Fault_l : RWBit := mkRWBit 0x01 3.
Definition reset_thermal : RWBit := mkRWBit 0x01 2.

Definition noisegate_enable : RWBit := mkRWBit 0x01 0.
Definition output_limiter_disable : RWBit := mkRWBit 0x06 7.

Definition noisegate_threshold : RWBits := mkRWBits 2 0x06 5.

Definition compression_ratio : RWBits := mkRWBits 2 0x07 0.

(** [attack_time] getter: [0.1067 * self._attack_control]. *)
Definition attack_time : M Q :=
  raw <- RWBits_get _attack_control;;
  ret ((1067 # 10000) * inject_Z raw)%Q.

(** [attack_time] setter: the value goes to the field as it is. *)
Definition attack_time_setter (value : Z) : M unit :=
  RWBits_set _attack_control value.

(** [release_time] getter: [0.0137 * self._release_control]. *)
Definition release_time : M Q :=
  raw <- RWBits_get _release_control;;
  ret ((137 # 10000) * inject_Z raw)%Q.

Definition release_time_setter (value : Z) : M unit :=
  RWBits_set _release_control value.

(** [hold_time] getter: [0.0137 * self._hold_time_control]. *)
Definition hold_time : M Q :=
  raw <- RWBits_get _hold_time_control;;
  ret ((137 # 10000) * inject_Z raw)%Q.

Definition hold_time_setter (value : Z) : M unit :=
  RWBits_set _hold_time_control value.

(** [fixed_gain] getter: the raw field. *)
Definition fixed_gain : M Z :=
  RWBits_get _fixed_gain_control.

(** [fixed_gain] setter.  [value] is an integer ([value & 0x3f]).  The test
    [self.compression_ratio is not 0] compares a small integer with 0 by
    identity, which is inequality of the numbers.  The write of [ratio] is
    followed, on both paths, by the write of [value]. *)
Definition fixed_gain_setter (value : Z) : M unit :=
  if (-28 <=? value) && (value <=? 30) then
    c <- RWBits_get compression_ratio;;
    (if negb (c =? 0) then
       let ratio := Z.land value 0x3f in
       RWBits_set _fixed_gain_control ratio
     else ret tt);;;
    RWBits_set _fixed_gain_control value
  else
    raise (ValueError "Gain must be -28 to 30!").

(** [output_limiter_level] getter: [-6.5 + 0.5 * self._output_limiter_level]. *)
Definition output_limiter_level : M Q :=
  raw <- RWBits_get _output_limiter_level;;
  ret (- (13 # 2) + (1 # 2) * inject_Z raw)%Q.

(** The code the limiter setter computes: [int((value + 6.5) / 0.5)], in
    exact arithmetic.  It is the code the floats give whenever the sum
    [value + 6.5] is a float, as for every multiple of 0.25 in range; for a
    level a rounding error below a half step the float sum rounds up to
    the half step. *)
Definition limiter_code (value : Q) : Z :=
  py_int ((value + (13 # 2)) / (1 # 2))%Q.

(** [output_limiter_level] setter; [value] is an int or a float. *)
Definition output_limiter_level_setter (value : Q) : M unit :=
  if Qle_bool (- (13 # 2)) value && Qle_bool value 9 then
    let output := limiter_code value in
    RWBits_set _output_limiter_level output
  else
    raise (ValueError "Output limiter level must be -6.5 to 9!").

(** [max_gain] getter: [self._max_gain + 18]. *)
Definition max_gain : M Z :=
  raw <- RWBits_get _max_gain;;
  ret (raw + 18).

(** [max_gain] setter. *)
Definition max_gain_setter (value : Z) : M unit :=
  if (18 <=? value) && (value <=? 30) then
    let max := value - 18 in
    RWBits_set _max_gain max
  else
    raise (ValueError "Max gain must be 18 to 30!").

(** The limiter encoding as the prose of the specification words it:
    [round((v + 6.5) / 0.5)]. *)
Definition spec_limiter_code (value : Q) : Z :=
  round_nearest ((value + (13 # 2)) / (1 # 2))%Q.

End TPA2016.

(** Mock buses used to exercise the driver on concrete inputs. *)

(** Register 0x07 pre-loaded with 0b00000010 (compression ratio code 2,
    max_gain raw 0), nothing on the bus yet. *)
Definition bus_ratio_4_1 : bus := Bus {[ 0x07 := 0x02 ]} [].

(** A chip whose registers all read 0 (compression ratio 1:1). *)
Definition bus_zero : bus := Bus ∅ [].

(** Register 0x01 pre-loaded with 0b10100101. *)
Definition bus_reg1 : bus := Bus {[ 0x01 := 0xa5 ]} [].

(** ** Vocabulary for the properties of the whole register map *)

(** Two fields share at least one bit of one register. *)
Definition overlap (f g : RWBits) : bool :=
  (register_address f =? register_address g)
  && (lowest_bit f <? lowest_bit g + num_bits g)
  && (lowest_bit g <? lowest_bit f + num_bits f).

(** Every bit-field the class [TPA2016] declares, the single bits seen as
    fields of width 1, in the order of the source. *)
Definition declared_fields : list RWBits :=
  [ TPA2016._attack_control; TPA2016._release_control;
    TPA2016._hold_time_control; TPA2016._fixed_gain_control;
    TPA2016._output_limiter_level; TPA2016._max_gain;
    as_bits TPA2016.speaker_enable_r; as_bits TPA2016.speaker_enable_l;
    as_bits TPA2016.amplifier_shutdown; as_bits TPA2016.reset_fault_r;
    as_bits TPA2016.reset_Fault_l; as_bits TPA2016.reset_thermal;
    as_bits TPA2016.noisegate_enable; as_bits TPA2016.output_limiter_disable;
    TPA2016.noisegate_threshold; TPA2016.compression_ratio ].

(** A field that lies within one 8-bit register. *)
Definition fits_byte (f : RWBits) : Prop :=
  0 <= lowest_bit f /\ 0 <= num_bits f /\ lowest_bit f + num_bits f <= 8.

(** Every register of the device holds a byte. *)
Definition bytes_ok (b : bus) : Prop :=
  forall r : Z, 0 <= peek b r < 256.

(** * Facts about the bit-field accessors *)

(** On a byte, [insert_field] is the accessor's computation word for word:
    clear the field, or the shifted value in, keep the low eight bits. *)
Lemma insert_field_on_byte f byte v :
  0 <= byte < 256 ->
  insert_field f byte v =
    Z.land (Z.lor (Z.land byte (Z.lnot (bit_mask f)))
                  (Z.shiftl v (lowest_bit f))) 0xff.
Proof.
  intros Hb. unfold insert_field.
  rewrite Z.land_lor_distr_l. f_equal.
  rewrite <- Z.land_assoc, (Z.land_comm (Z.lnot (bit_mask f))), Z.land_assoc.
  change 0xff with (Z.ones 8).
  rewrite (Z.land_ones byte 8) by lia.
  rewrite (Z.mod_small byte) by (change (2 ^ 8) with 256; lia).
  reflexivity.
Qed.

Section BitField.

Variable f : RWBits.
Hypothesis lowest_nonneg : 0 <= lowest_bit f.
Hypothesis width_nonneg : 0 <= num_bits f.

Lemma bit_mask_testbit i :
  0 <= i -> Z.testbit (bit_mask f) i = in_field f i.
Proof using lowest_nonneg width_nonneg.
  intros Hi. unfold bit_mask, in_field.
  rewrite Z.shiftl_spec by lia.
  rewrite Z.testbit_ones by lia.
  destruct (Z.leb_spec (lowest_bit f) i), (Z.leb_spec 0 (i - lowest_bit f)); try lia;
    simpl; auto.
Qed.

Lemma insert_field_testbit byte value i :
  0 <= i ->
  Z.testbit (insert_field f byte value) i =
    (Z.testbit byte i && negb (in_field f i))
    || (Z.testbit value (i - lowest_bit f) && (i <? 8)).
Proof using lowest_nonneg width_nonneg.
  intros Hi. unfold insert_field.
  rewrite Z.lor_spec, !Z.land_spec, Z.lnot_spec, Z.shiftl_spec by lia.
  rewrite bit_mask_testbit by lia.
  change 0xff with (Z.ones 8).
  now rewrite Z.testbit_ones_nonneg by lia.
Qed.

Lemma testbit_above_width v i :
  0 <= v < 2 ^ num_bits f -> num_bits f <= i -> Z.testbit v i = false.
Proof using width_nonneg.
  intros Hv Hi. rewrite <- (Z.mod_small v (2 ^ num_bits f)) by exact Hv.
  apply Z.mod_pow2_bits_high. lia.
Qed.

(** Inside a field that lies within the byte the written byte has the bits
    of the value. *)
Lemma insert_field_inside byte value i :
  lowest_bit f + num_bits f <= 8 ->
  in_field f i = true ->
  Z.testbit (insert_field f byte value) i = Z.testbit value (i - lowest_bit f).
Proof using lowest_nonneg width_nonneg.
  intros Hfit Hin. pose proof Hin as Hin'.
  unfold in_field in Hin'. apply andb_true_iff in Hin' as [H1 H2].
  apply Z.leb_le in H1. apply Z.ltb_lt in H2.
  rewrite insert_field_testbit by lia. rewrite Hin.
  replace (i <? 8) with true by (symmetry; apply Z.ltb_lt; lia).
  now rewrite andb_false_r, andb_true_r.
Qed.

(** Outside the field the written byte has the bits of the byte read, when
    the value fits the field. *)
Lemma insert_field_outside byte value i :
  0 <= value < 2 ^ num_bits f ->
  in_field f i = false ->
  Z.testbit (insert_field f byte value) i = Z.testbit byte i.
Proof using lowest_nonneg width_nonneg.
  intros Hv Hout.
  destruct (Z.neg_nonneg_cases i) as [Hneg | Hpos];
    [now rewrite !Z.testbit_neg_r by lia |].
  rewrite insert_field_testbit by lia. rewrite Hout.
  replace (Z.testbit value (i - lowest_bit f)) with false.
  - cbn [negb andb]. now rewrite andb_true_r, orb_false_r.
  - symmetry. unfold in_field in Hout. apply andb_false_iff in Hout as [H | H].
    + apply Z.leb_gt in H. apply Z.testbit_neg_r. lia.
    + apply Z.ltb_ge in H. apply testbit_above_width; [exact Hv | lia].
Qed.

Lemma extract_testbit byte i :
  0 <= i ->
  Z.testbit (extract f byte) i = Z.testbit byte (i + lowest_bit f) && (i <? num_bits f).
Proof using lowest_nonneg width_nonneg.
  intros Hi. unfold extract.
  rewrite Z.shiftr_spec, Z.land_spec by lia.
  rewrite bit_mask_testbit by lia. unfold in_field.
  replace (lowest_bit f <=? i + lowest_bit f) with true
    by (symmetry; apply Z.leb_le; lia).
  simpl. f_equal.
  destruct (Z.ltb_spec (i + lowest_bit f) (lowest_bit f + num_bits f)),
           (Z.ltb_spec i (num_bits f)); auto; lia.
Qed.

(** Reading a field back after a write gives the value reduced to the
    width of the field. *)
Lemma extract_insert_field byte value :
  lowest_bit f + num_bits f <= 8 ->
  extract f (insert_field f byte value) = value mod 2 ^ num_bits f.
Proof using lowest_nonneg width_nonneg.
  intros Hfit.
  rewrite <- Z.land_ones by lia.
  apply Z.bits_inj'. intros i Hi.
  rewrite extract_testbit by lia.
  rewrite Z.land_spec, Z.testbit_ones_nonneg by lia.
  destruct (Z.ltb_spec i (num_bits f)); [| now rewrite !andb_false_r].
  rewrite insert_field_inside.
  - now replace (i + lowest_bit f - lowest_bit f) with i by lia.
  - exact Hfit.
  - unfold in_field. apply andb_true_iff. split.
    + apply Z.leb_le. lia.
    + apply Z.ltb_lt. lia.
Qed.

(** A second write to a field forgets a first one whose value fitted. *)
Lemma insert_field_twice byte u v :
  0 <= u < 2 ^ num_bits f ->
  insert_field f (insert_field f byte u) v = insert_field f byte v.
Proof using lowest_nonneg width_nonneg.
  intros Hu.
  apply Z.bits_inj'. intros i Hi.
  rewrite (insert_field_testbit (insert_field f byte u)) by lia.
  rewrite (insert_field_testbit byte v) by lia.
  destruct (in_field f i) eqn:E.
  - cbn [negb]. now rewrite !andb_false_r.
  - now rewrite insert_field_outside by assumption.
Qed.

End BitField.

(** * Running the accessors *)

Lemma peek_insert m l r x : peek (Bus (<[r := x]> m) l) r = x.
Proof. unfold peek. simpl. now rewrite lookup_insert_eq. Qed.

Lemma peek_insert_ne m l r r' x :
  r <> r' -> peek (Bus (<[r := x]> m) l) r' = peek (Bus m l) r'.
Proof. intros H. unfold peek. simpl. now rewrite lookup_insert_ne. Qed.

Lemma RWBits_get_run f b :
  RWBits_get f b =
    (Return (field_of f b),
     Bus (regs b)
         (log b ++ [BusRead (register_address f) (peek b (register_address f))])).
Proof. reflexivity. Qed.

Lemma RWBits_set_run f v b :
  RWBits_set f v b =
    (Return tt,
     Bus (<[register_address f :=
              insert_field f (peek b (register_address f)) v]> (regs b))
         (log b ++ [BusRead (register_address f) (peek b (register_address f));
                    BusWrite (register_address f)
                      (insert_field f (peek b (register_address f)) v)])).
Proof.
  unfold RWBits_set, bind, bus_read, bus_write. simpl.
  now rewrite <- app_assoc.
Qed.

Lemma field_of_after_set f v b :
  0 <= lowest_bit f -> 0 <= num_bits f ->
  lowest_bit f + num_bits f <= 8 ->
  field_of f (snd (RWBits_set f v b)) = v mod 2 ^ num_bits f.
Proof.
  intros Hl Hw Hfit. rewrite RWBits_set_run. unfold field_of. simpl.
  rewrite peek_insert. now apply extract_insert_field.
Qed.

(** * The properties of the driver *)

Import TPA2016.

(** ** Rejected values *)

Lemma fixed_gain_rejects v b :
  ~ (-28 <= v <= 30) ->
  fixed_gain_setter v b = (Raise (ValueError "Gain must be -28 to 30!"), b).
Proof.
  intros H. unfold fixed_gain_setter.
  destruct (Z.leb_spec (-28) v), (Z.leb_spec v 30); simpl; try reflexivity; lia.
Qed.

Lemma output_limiter_level_rejects v b :
  ~ (- (13 # 2) <= v /\ v <= 9)%Q ->
  output_limiter_level_setter v b =
    (Raise (ValueError "Output limiter level must be -6.5 to 9!"), b).
Proof.
  intros H. unfold output_limiter_level_setter.
  destruct (Qle_bool (- (13 # 2)) v) eqn:E1, (Qle_bool v 9) eqn:E2;
    simpl; try reflexivity.
  exfalso. apply H. split; now apply Qle_bool_iff.
Qed.

Lemma max_gain_rejects v b :
  ~ (18 <= v <= 30) ->
  max_gain_setter v b = (Raise (ValueError "Max gain must be 18 to 30!"), b).
Proof.
  intros H. unfold max_gain_setter.
  destruct (Z.leb_spec 18 v), (Z.leb_spec v 30); simpl; try reflexivity; lia.
Qed.

(** C1.  A validated setter called with a value outside its legal range
    ([fixed_gain] outside [-28, 30], [output_limiter_level] outside
    [-6.5, 9], [max_gain] outside [18, 30]) raises [ValueError] and hands
    the bus back as it found it: no transaction was logged, so the raise
    comes before any bus traffic, and no register changed. *)
Theorem range_error_before_any_transaction (b : bus) :
  (forall v : Z, ~ (-28 <= v <= 30) ->
     exists msg, fixed_gain_setter v b = (Raise (ValueError msg), b)) /\
  (forall v : Q, ~ (- (13 # 2) <= v /\ v <= 9)%Q ->
     exists msg, output_limiter_level_setter v b = (Raise (ValueError msg), b)) /\
  (forall v : Z, ~ (18 <= v <= 30) ->
     exists msg, max_gain_setter v b = (Raise (ValueError msg), b)).
Proof.
  repeat split; intros v Hv; eexists.
  - now apply fixed_gain_rejects.
  - now apply output_limiter_level_rejects.
  - now apply max_gain_rejects.
Qed.

Lemma range_error_before_any_transaction_witness :
  (exists msg, fixed_gain_setter 31 bus_ratio_4_1
               = (Raise (ValueError msg), bus_ratio_4_1)) /\
  (exists msg, output_limiter_level_setter (19 # 2) bus_ratio_4_1
               = (Raise (ValueError msg), bus_ratio_4_1)) /\
  (exists msg, max_gain_setter 17 bus_ratio_4_1
               = (Raise (ValueError msg), bus_ratio_4_1)).
Proof.
  destruct (range_error_before_any_transaction bus_ratio_4_1) as (Hg & Hl & Hm).
  split; [| split].
  - apply Hg. lia.
  - apply Hl. intros [_ H]. revert H. unfold Qle. simpl. lia.
  - apply Hm. lia.
Defined.

(** ** max_gain *)

Lemma max_gain_setter_accepts v b :
  18 <= v <= 30 ->
  max_gain_setter v b = RWBits_set _max_gain (v - 18) b.
Proof.
  intros H. unfold max_gain_setter.
  destruct (Z.leb_spec 18 v), (Z.leb_spec v 30); simpl; try reflexivity; lia.
Qed.

(** C6.  For every integer [v] with [18 <= v <= 30], setting [max_gain] to
    [v] succeeds, leaves [v - 18] in the 4-bit field at register 0x07
    bit 4, and a following read of [max_gain] returns [v] exactly. *)
Theorem max_gain_round_trip (b : bus) (v : Z) :
  18 <= v <= 30 ->
  fst (max_gain_setter v b) = Return tt /\
  field_of _max_gain (snd (max_gain_setter v b)) = v - 18 /\
  fst (max_gain (snd (max_gain_setter v b))) = Return v.
Proof.
  intros H. rewrite max_gain_setter_accepts by lia.
  assert (Hf : field_of _max_gain (snd (RWBits_set _max_gain (v - 18) b)) = v - 18).
  { rewrite field_of_after_set by (simpl; lia).
    apply Z.mod_small. simpl. lia. }
  repeat split.
  - exact Hf.
  - unfold max_gain, bind, ret. rewrite RWBits_get_run. cbn [fst].
    rewrite Hf. f_equal. lia.
Qed.

Lemma max_gain_round_trip_witness :
  fst (max_gain_setter 24 bus_ratio_4_1) = Return tt /\
  field_of _max_gain (snd (max_gain_setter 24 bus_ratio_4_1)) = 24 - 18 /\
  fst (max_gain (snd (max_gain_setter 24 bus_ratio_4_1))) = Return 24.
Proof. apply (max_gain_round_trip bus_ratio_4_1 24). lia. Defined.

(** C7.  With register 0x07 holding 0b00000010 (= 0x02), setting
    [max_gain] to 24 reads that byte and writes 0b01100010 (= 0x62) to
    register 0x07: bits 4-7 hold 6, the low bits are kept. *)
Theorem max_gain_24_scenario (b : bus) :
  peek b 0x07 = 0x02 ->
  emits (max_gain_setter 24) b [BusRead 0x07 0x02; BusWrite 0x07 0x62] /\
  peek (snd (max_gain_setter 24 b)) 0x07 = 0x62 /\
  0x62 = 6 * 2 ^ 4 + 2.
Proof.
  intros H. unfold emits.
  rewrite max_gain_setter_accepts by lia.
  rewrite RWBits_set_run. simpl. rewrite H.
  repeat split. apply peek_insert.
Qed.

Lemma max_gain_24_scenario_witness :
  emits (max_gain_setter 24) bus_ratio_4_1 [BusRead 0x07 0x02; BusWrite 0x07 0x62] /\
  peek (snd (max_gain_setter 24 bus_ratio_4_1)) 0x07 = 0x62 /\
  0x62 = 6 * 2 ^ 4 + 2.
Proof. apply (max_gain_24_scenario bus_ratio_4_1). reflexivity. Defined.

(** ** fixed_gain *)

Lemma land_0x3f v : Z.land v 0x3f = v mod 2 ^ 6.
Proof. now rewrite <- (Z.land_ones v 6) by lia. Qed.

Lemma land_0x3f_range v : 0 <= Z.land v 0x3f < 2 ^ 6.
Proof. rewrite land_0x3f. apply Z.mod_pos_bound. lia. Qed.

(** The raw write after the masked one leaves the byte the raw write alone
    leaves. *)
Lemma insert_after_masked_gain byte v :
  insert_field _fixed_gain_control
    (insert_field _fixed_gain_control byte (Z.land v 0x3f)) v =
  insert_field _fixed_gain_control byte v.
Proof.
  apply (insert_field_twice _fixed_gain_control); try (simpl; lia).
  apply land_0x3f_range.
Qed.

(** What an accepted [fixed_gain] set does, on either path. *)
Lemma fixed_gain_setter_run v b :
  -28 <= v <= 30 ->
  let old := peek b 0x05 in
  let masked := insert_field _fixed_gain_control old (Z.land v 0x3f) in
  let new := insert_field _fixed_gain_control old v in
  fixed_gain_setter v b =
    (Return tt,
     Bus (<[0x05 := new]> (regs b))
         (log b ++ BusRead 0x07 (peek b 0x07) ::
            (if field_of compression_ratio b =? 0
             then [BusRead 0x05 old; BusWrite 0x05 new]
             else [BusRead 0x05 old; BusWrite 0x05 masked;
                   BusRead 0x05 masked; BusWrite 0x05 new]))).
Proof.
  intros H old masked new. subst old masked new. unfold fixed_gain_setter.
  replace ((-28 <=? v) && (v <=? 30)) with true
    by (symmetry; apply andb_true_iff; split; apply Z.leb_le; lia).
  unfold bind at 1. rewrite RWBits_get_run.
  destruct (field_of compression_ratio b =? 0) eqn:E; cbn [negb].
  - unfold bind, ret. rewrite RWBits_set_run.
    unfold peek. cbn [regs log register_address _fixed_gain_control
                      compression_ratio].
    now rewrite <- app_assoc.
  - unfold bind. rewrite !RWBits_set_run.
    unfold peek. cbn [regs log register_address _fixed_gain_control
                      compression_ratio].
    rewrite lookup_insert_eq. cbn [default id].
    rewrite insert_after_masked_gain.
    rewrite insert_insert_eq.
    now rewrite <- !app_assoc.
Qed.

Lemma fst_RWBits_get f b : fst (RWBits_get f b) = Return (field_of f b).
Proof. reflexivity. Qed.

Lemma fixed_gain_field_after_set v b :
  -28 <= v <= 30 ->
  field_of _fixed_gain_control (snd (fixed_gain_setter v b)) = v mod 2 ^ 6.
Proof.
  intros H. rewrite (fixed_gain_setter_run v b H). cbn [snd].
  unfold field_of. cbn [register_address _fixed_gain_control].
  rewrite peek_insert.
  apply (extract_insert_field _fixed_gain_control); simpl; lia.
Qed.

(** C2, as the specification words it, fails: the getter returns the raw
    unsigned 6-bit field.  With the compression ratio at 4:1, setting
    [fixed_gain] to -16 (the value of the example script) and reading it
    back gives 48. *)
Lemma fixed_gain_round_trip_fails_at_minus_16 :
  -28 <= -16 <= 30 /\
  field_of compression_ratio bus_ratio_4_1 = COMPRESSION_4_1 /\
  COMPRESSION_4_1 <> 0 /\
  fst (fixed_gain (snd (fixed_gain_setter (-16) bus_ratio_4_1))) = Return 48 /\
  ~ (forall (b : bus) (v : Z),
       -28 <= v <= 30 ->
       field_of compression_ratio b <> 0 ->
       fst (fixed_gain (snd (fixed_gain_setter v b))) = Return v).
Proof.
  assert (E : fst (fixed_gain (snd (fixed_gain_setter (-16) bus_ratio_4_1)))
              = Return 48) by (vm_compute; reflexivity).
  repeat split; try lia; try (vm_compute; congruence).
  intros Hall.
  specialize (Hall bus_ratio_4_1 (-16)).
  rewrite E in Hall.
  assert (Return 48 = Return (-16)) as Habs.
  { apply Hall; [lia | vm_compute; congruence]. }
  inversion Habs.
Qed.

(** C2, amended.  For every integer [v] with [-28 <= v <= 30], with the
    compression ratio at a non-1:1 value, setting [fixed_gain] to [v] and
    then reading it returns [v mod 64], the raw 6-bit field: [v] itself
    when [0 <= v], and [v + 64] when [v < 0]. *)
Theorem fixed_gain_round_trip_raw (b : bus) (v : Z) :
  -28 <= v <= 30 ->
  field_of compression_ratio b <> 0 ->
  fst (fixed_gain (snd (fixed_gain_setter v b))) = Return (v mod 64) /\
  (0 <= v -> v mod 64 = v) /\
  (v < 0 -> v mod 64 = v + 64).
Proof.
  intros H _. split; [| split].
  - unfold fixed_gain. rewrite fst_RWBits_get.
    now rewrite fixed_gain_field_after_set.
  - intros. apply Z.mod_small. lia.
  - intros. symmetry. apply (Z.mod_unique v 64 (-1) (v + 64)); lia.
Qed.

Lemma fixed_gain_round_trip_raw_witness :
  fst (fixed_gain (snd (fixed_gain_setter (-16) bus_ratio_4_1)))
    = Return ((-16) mod 64) /\
  (0 <= -16 -> (-16) mod 64 = -16) /\
  (-16 < 0 -> (-16) mod 64 = -16 + 64).
Proof.
  apply (fixed_gain_round_trip_raw bus_ratio_4_1 (-16)).
  - lia.
  - vm_compute. congruence.
Defined.

(** C3.  For every in-range [v] the [fixed_gain] setter ends with the
    write of the raw value [v] to the 6-bit field: the registers it leaves
    are those the raw write alone leaves, so the masked value of the
    non-1:1 branch has no effect on the final state, and two devices that
    agree on register 0x05 end with the same register 0x05 whatever their
    compression ratios. *)
Theorem fixed_gain_mask_is_dead (b b' : bus) (v : Z) :
  -28 <= v <= 30 ->
  regs (snd (fixed_gain_setter v b))
    = regs (snd (RWBits_set _fixed_gain_control v b)) /\
  (exists evs,
     emits (fixed_gain_setter v) b
       (evs ++ [BusWrite 0x05 (insert_field _fixed_gain_control (peek b 0x05) v)])) /\
  (peek b' 0x05 = peek b 0x05 ->
   peek (snd (fixed_gain_setter v b')) 0x05
     = peek (snd (fixed_gain_setter v b)) 0x05).
Proof.
  intros H. split; [| split].
  - rewrite (fixed_gain_setter_run v b H), RWBits_set_run. reflexivity.
  - unfold emits. rewrite (fixed_gain_setter_run v b H). cbn [snd log].
    destruct (field_of compression_ratio b =? 0).
    + exists [BusRead 0x07 (peek b 0x07); BusRead 0x05 (peek b 0x05)].
      reflexivity.
    + eexists [_; _; _; _]. reflexivity.
  - intros E.
    rewrite (fixed_gain_setter_run v b H), (fixed_gain_setter_run v b' H).
    cbn [snd]. rewrite !peek_insert. now rewrite E.
Qed.

Lemma fixed_gain_mask_is_dead_witness :
  regs (snd (fixed_gain_setter 10 bus_ratio_4_1))
    = regs (snd (RWBits_set _fixed_gain_control 10 bus_ratio_4_1)) /\
  (exists evs,
     emits (fixed_gain_setter 10) bus_ratio_4_1
       (evs ++ [BusWrite 0x05
                  (insert_field _fixed_gain_control (peek bus_ratio_4_1 0x05) 10)])) /\
  (peek bus_zero 0x05 = peek bus_ratio_4_1 0x05 ->
   peek (snd (fixed_gain_setter 10 bus_zero)) 0x05
     = peek (snd (fixed_gain_setter 10 bus_ratio_4_1)) 0x05).
Proof. apply (fixed_gain_mask_is_dead bus_ratio_4_1 bus_zero 10). lia. Defined.

(** ** output_limiter_level *)

Lemma limiter_code_unfold v :
  limiter_code v = ((Qnum v * 2 + 13 * Z.pos (Qden v)) * 2) ÷ (Z.pos (Qden v) * 2).
Proof.
  unfold limiter_code, py_int. destruct v as [p q]. simpl.
  f_equal; lia.
Qed.

Lemma limiter_code_range v :
  (- (13 # 2) <= v /\ v <= 9)%Q -> 0 <= limiter_code v <= 31.
Proof.
  intros [Hlo Hhi]. rewrite limiter_code_unfold.
  unfold Qle in Hlo, Hhi. simpl in Hlo, Hhi.
  set (p := Qnum v) in *. set (q := Z.pos (Qden v)) in *.
  assert (0 < q) by (unfold q; lia).
  rewrite Z.quot_div_nonneg by lia.
  split.
  - apply Z.div_pos; lia.
  - apply Z.div_le_upper_bound; lia.
Qed.

Lemma output_limiter_level_setter_accepts v b :
  (- (13 # 2) <= v /\ v <= 9)%Q ->
  output_limiter_level_setter v b =
    RWBits_set _output_limiter_level (limiter_code v) b.
Proof.
  intros [Hlo Hhi]. unfold output_limiter_level_setter.
  apply Qle_bool_iff in Hlo, Hhi. now rewrite Hlo, Hhi.
Qed.

(** The fixed-gain field read from a register 0x05 into which the limiter
    field was written. *)
Lemma gain_over_limiter byte code :
  0 <= code <= 31 ->
  let g := extract _fixed_gain_control
             (insert_field _output_limiter_level byte code) in
  Z.land g 31 = code /\ Z.testbit g 5 = Z.testbit byte 5.
Proof.
  intros Hc g. subst g.
  assert (Hfit : 0 <= code < 2 ^ num_bits _output_limiter_level)
    by (simpl; lia).
  split.
  - change 31 with (Z.ones 5).
    rewrite <- (Z.mod_small code (2 ^ 5)) at 2 by lia.
    rewrite <- (Z.land_ones code 5) by lia.
    apply Z.bits_inj'. intros i Hi.
    rewrite !Z.land_spec.
    rewrite (extract_testbit _fixed_gain_control) by (simpl; lia).
    rewrite Z.testbit_ones_nonneg by lia.
    cbn [lowest_bit num_bits _fixed_gain_control].
    rewrite Z.add_0_r.
    destruct (Z.ltb_spec i 5); [| now rewrite !andb_false_r].
    rewrite (insert_field_inside _output_limiter_level);
      [| simpl; lia | simpl; lia | simpl; lia |].
    + cbn [lowest_bit _output_limiter_level]. rewrite Z.sub_0_r.
      replace (i <? 6) with true by (symmetry; apply Z.ltb_lt; lia).
      now rewrite !andb_true_r.
    + unfold in_field. cbn [lowest_bit num_bits _output_limiter_level].
      apply andb_true_iff. split; [apply Z.leb_le | apply Z.ltb_lt]; lia.
  - rewrite (extract_testbit _fixed_gain_control) by (simpl; lia).
    change (5 + lowest_bit _fixed_gain_control) with 5.
    change (5 <? num_bits _fixed_gain_control) with true.
    rewrite andb_true_r.
    apply (insert_field_outside _output_limiter_level);
      [simpl; lia | simpl; lia | exact Hfit | reflexivity].
Qed.

(** C4.  [_fixed_gain_control] (6 bits) and [_output_limiter_level]
    (5 bits) are both declared over register 0x05 from bit 0.  Setting
    [output_limiter_level] to any valid value therefore overwrites the low
    5 bits of the fixed-gain field: a following [fixed_gain] read returns a
    value whose low 5 bits are the limiter code and whose bit 5 is the one
    register 0x05 had before, also right after a [fixed_gain] set. *)
Theorem limiter_overwrites_fixed_gain (b : bus) (v : Q) (g0 : Z) :
  (- (13 # 2) <= v /\ v <= 9)%Q ->
  -28 <= g0 <= 30 ->
  (register_address _fixed_gain_control = 0x05 /\
   register_address _output_limiter_level = 0x05 /\
   lowest_bit _fixed_gain_control = 0 /\
   lowest_bit _output_limiter_level = 0 /\
   num_bits _fixed_gain_control = 6 /\
   num_bits _output_limiter_level = 5) /\
  0 <= limiter_code v <= 31 /\
  (exists g,
     fst (fixed_gain (snd (output_limiter_level_setter v b))) = Return g /\
     Z.land g 31 = limiter_code v /\
     Z.testbit g 5 = Z.testbit (peek b 0x05) 5) /\
  (exists g,
     fst (fixed_gain
            (snd (output_limiter_level_setter v
                    (snd (fixed_gain_setter g0 b))))) = Return g /\
     Z.land g 31 = limiter_code v /\
     Z.testbit g 5 = Z.testbit g0 5).
Proof.
  intros Hv Hg.
  pose proof (limiter_code_range v Hv) as Hc.
  assert (Hany : forall b0 : bus,
    exists g,
      fst (fixed_gain (snd (output_limiter_level_setter v b0))) = Return g /\
      Z.land g 31 = limiter_code v /\
      Z.testbit g 5 = Z.testbit (peek b0 0x05) 5).
  { intros b0. rewrite output_limiter_level_setter_accepts by exact Hv.
    unfold fixed_gain. rewrite fst_RWBits_get, RWBits_set_run.
    cbn [snd]. unfold field_of.
    cbn [register_address _fixed_gain_control _output_limiter_level].
    rewrite peek_insert.
    eexists. split; [reflexivity |].
    apply gain_over_limiter. exact Hc. }
  split; [repeat split |]. split; [exact Hc |]. split; [apply Hany |].
  destruct (Hany (snd (fixed_gain_setter g0 b))) as (g & Eg & Hlow & Hbit).
  exists g. split; [exact Eg |]. split; [exact Hlow |].
  rewrite Hbit.
  rewrite (fixed_gain_setter_run g0 b Hg). cbn [snd].
  rewrite peek_insert.
  apply (insert_field_inside _fixed_gain_control);
    [simpl; lia | simpl; lia | simpl; lia | reflexivity].
Qed.

Lemma limiter_overwrites_fixed_gain_witness :
  exists g,
    fst (fixed_gain
           (snd (output_limiter_level_setter 9
                   (snd (fixed_gain_setter 10 bus_zero))))) = Return g /\
    Z.land g 31 = limiter_code 9 /\
    Z.testbit g 5 = Z.testbit 10 5.
Proof.
  apply (limiter_overwrites_fixed_gain bus_zero 9 10).
  - split; unfold Qle; simpl; lia.
  - lia.
Defined.

(** The gain set before the limiter is lost: after [fixed_gain = 10] and
    [output_limiter_level = 9], [fixed_gain] reads 31. *)
Example fixed_gain_lost_after_limiter :
  fst (fixed_gain
         (snd (output_limiter_level_setter 9
                 (snd (fixed_gain_setter 10 bus_zero))))) = Return 31.
Proof. vm_compute. reflexivity. Qed.

(** ** Bit-field writes are read-modify-write *)

Lemma emits_unique {A} (m : M A) b evs evs' :
  emits m b evs -> emits m b evs' -> evs = evs'.
Proof.
  unfold emits. intros H H'. rewrite H in H'.
  now apply app_inv_head in H'.
Qed.

Lemma RWBits_set_frame f v b r :
  r <> register_address f ->
  peek (snd (RWBits_set f v b)) r = peek b r.
Proof.
  intros H. rewrite RWBits_set_run. cbn [snd].
  rewrite peek_insert_ne by congruence.
  reflexivity.
Qed.

Lemma RWBits_set_is_rmw f v b :
  0 <= lowest_bit f -> 0 <= num_bits f ->
  lowest_bit f + num_bits f <= 8 ->
  0 <= v < 2 ^ num_bits f ->
  let a := register_address f in
  let old := peek b a in
  exists new,
    emits (RWBits_set f v) b [BusRead a old; BusWrite a new] /\
    peek (snd (RWBits_set f v b)) a = new /\
    (forall r, r <> a -> peek (snd (RWBits_set f v b)) r = peek b r) /\
    (forall i, in_field f i = true ->
               Z.testbit new i = Z.testbit v (i - lowest_bit f)) /\
    (forall i, in_field f i = false -> Z.testbit new i = Z.testbit old i).
Proof.
  intros Hl Hw Hfit Hv a old. subst a old.
  exists (insert_field f (peek b (register_address f)) v).
  split; [| split; [| split; [| split]]].
  - unfold emits. now rewrite RWBits_set_run.
  - rewrite RWBits_set_run. apply peek_insert.
  - intros r Hr. now apply RWBits_set_frame.
  - intros i Hi. now apply insert_field_inside.
  - intros i Hi. now apply insert_field_outside.
Qed.

(** C5, as the specification words it, fails: the accessor does not reduce
    the value to the width of the field, and the setters without
    validation pass it any integer.  On a chip whose registers read 0,
    [attack_time = 64] writes 0x40 to register 0x02: bit 6, which is not
    one of the six bits of [_attack_control], changes.  Likewise the
    [fixed_gain = -16] of the example script writes 0xf0 to register 0x05,
    setting bits 6 and 7 above the 6-bit field. *)
Lemma bit_field_write_sets_bits_above_field :
  emits (attack_time_setter 64) bus_zero [BusRead 0x02 0; BusWrite 0x02 0x40] /\
  in_field _attack_control 6 = false /\
  Z.testbit 0x40 6 = true /\
  Z.testbit (peek bus_zero 0x02) 6 = false /\
  emits (fixed_gain_setter (-16)) bus_zero
    [BusRead 0x07 0; BusRead 0x05 0; BusWrite 0x05 0xf0] /\
  ~ (forall (f : RWBits) (v : Z) (b : bus),
       In f declared_fields -> bytes_ok b ->
       exists new,
         emits (RWBits_set f v) b
           [BusRead (register_address f) (peek b (register_address f));
            BusWrite (register_address f) new] /\
         (forall i, in_field f i = false ->
                    Z.testbit new i = Z.testbit (peek b (register_address f)) i)).
Proof.
  assert (E : emits (attack_time_setter 64) bus_zero
                [BusRead 0x02 0; BusWrite 0x02 0x40])
    by (vm_compute; reflexivity).
  split; [exact E |].
  split; [reflexivity |]. split; [reflexivity |]. split; [reflexivity |].
  split; [vm_compute; reflexivity |].
  intros Hall.
  destruct (Hall _attack_control 64 bus_zero) as (new & Hev & Hout).
  - unfold declared_fields. simpl. tauto.
  - intros r. unfold peek, bus_zero. simpl. rewrite lookup_empty. simpl. lia.
  - assert (Hnew : [BusRead 0x02 0; BusWrite 0x02 new]
                   = [BusRead 0x02 0; BusWrite 0x02 0x40]).
    { eapply (emits_unique (attack_time_setter 64) bus_zero); [exact Hev | exact E]. }
    injection Hnew as ->.
    specialize (Hout 6 eq_refl). vm_compute in Hout. discriminate Hout.
Qed.

(** C5, amended.  Every bit-field write of a value that fits the field (a
    field within the 8-bit register, [0 <= v < 2 ^ num_bits]) is a
    read-modify-write of the declared register: one byte read, then one
    byte write to the same register whose bits inside the field are those
    of the value and whose bits outside the field are those just read; no
    other register changes.  In particular, whatever byte register 0x01
    holds, setting [speaker_enable_l] writes back a byte that differs from
    it at most in bit 6. *)
Theorem bit_field_write_changes_only_declared_bits :
  (forall (f : RWBits) (v : Z) (b : bus),
     0 <= lowest_bit f -> 0 <= num_bits f ->
     lowest_bit f + num_bits f <= 8 ->
     0 <= v < 2 ^ num_bits f ->
     exists new,
       emits (RWBits_set f v) b
         [BusRead (register_address f) (peek b (register_address f));
          BusWrite (register_address f) new] /\
       peek (snd (RWBits_set f v b)) (register_address f) = new /\
       (forall r, r <> register_address f ->
                  peek (snd (RWBits_set f v b)) r = peek b r) /\
       (forall i, in_field f i = true ->
                  Z.testbit new i = Z.testbit v (i - lowest_bit f)) /\
       (forall i, in_field f i = false ->
                  Z.testbit new i = Z.testbit (peek b (register_address f)) i)) /\
  (forall (on : bool) (b : bus),
     exists new,
       emits (RWBit_set speaker_enable_l on) b
         [BusRead 0x01 (peek b 0x01); BusWrite 0x01 new] /\
       Z.testbit new 6 = on /\
       (forall i, i <> 6 -> Z.testbit new i = Z.testbit (peek b 0x01) i)).
Proof.
  split.
  - intros f v b Hl Hw Hfit Hv. exact (RWBits_set_is_rmw f v b Hl Hw Hfit Hv).
  - intros on b. unfold RWBit_set.
    destruct (RWBits_set_is_rmw (as_bits speaker_enable_l)
                (if on then 1 else 0) b) as (new & Hev & _ & _ & Hin & Hout);
      [simpl; lia | simpl; lia | simpl; lia | destruct on; simpl; lia |].
    exists new. split; [exact Hev | split].
    + rewrite Hin by reflexivity. now destruct on.
    + intros i Hi. apply Hout.
      unfold in_field. cbn [as_bits speaker_enable_l lowest_bit num_bits bit].
      destruct (Z.leb_spec 6 i); [| reflexivity].
      destruct (Z.ltb_spec i (6 + 1)); [lia | reflexivity].
Qed.

Lemma bit_field_write_changes_only_declared_bits_witness :
  (exists new,
     emits (RWBits_set _max_gain 6) bus_ratio_4_1
       [BusRead 0x07 (peek bus_ratio_4_1 0x07); BusWrite 0x07 new] /\
     peek (snd (RWBits_set _max_gain 6 bus_ratio_4_1)) 0x07 = new /\
     (forall r, r <> 0x07 ->
                peek (snd (RWBits_set _max_gain 6 bus_ratio_4_1)) r
                  = peek bus_ratio_4_1 r) /\
     (forall i, in_field _max_gain i = true ->
                Z.testbit new i = Z.testbit 6 (i - 4)) /\
     (forall i, in_field _max_gain i = false ->
                Z.testbit new i = Z.testbit (peek bus_ratio_4_1 0x07) i)) /\
  (exists new,
     emits (RWBit_set speaker_enable_l false) bus_reg1
       [BusRead 0x01 (peek bus_reg1 0x01); BusWrite 0x01 new] /\
     Z.testbit new 6 = false /\
     (forall i, i <> 6 -> Z.testbit new i = Z.testbit (peek bus_reg1 0x01) i)).
Proof.
  destruct bit_field_write_changes_only_declared_bits as [Hgen Hbit].
  split.
  - apply (Hgen _max_gain 6 bus_ratio_4_1); simpl; lia.
  - apply (Hbit false bus_reg1).
Defined.

(** A value too wide for [compression_ratio] reaches [max_gain] next to it
    in register 0x07: assigning 16 writes 0x10, which reads as ratio 1:1
    and max gain 19. *)
Example compression_ratio_16_reaches_max_gain :
  log (snd (RWBits_set compression_ratio 16 bus_zero))
    = [BusRead 0x07 0; BusWrite 0x07 0x10] /\
  fst (max_gain (snd (RWBits_set compression_ratio 16 bus_zero))) = Return 19.
Proof. split; vm_compute; reflexivity. Qed.

(** On the mock bus pre-loaded with 0b10100101 in register 0x01, turning
    the left speaker on writes 0b11100101. *)
Example speaker_enable_l_on_0xa5 :
  log (snd (RWBit_set speaker_enable_l true bus_reg1))
    = [BusRead 0x01 0xa5; BusWrite 0x01 0xe5].
Proof. vm_compute. reflexivity. Qed.

(** ** output_limiter_level round trip *)

Lemma limiter_code_half_steps v k :
  (v == inject_Z k * (1 # 2))%Q -> limiter_code v = k + 13.
Proof.
  intros Hv. rewrite limiter_code_unfold.
  unfold Qeq in Hv. simpl in Hv.
  replace ((Qnum v * 2 + 13 * Z.pos (Qden v)) * 2)
    with ((k + 13) * (Z.pos (Qden v) * 2)) by lia.
  apply Z.quot_mul. lia.
Qed.

Lemma Qfloor_plus_half z : Qfloor (inject_Z z + (1 # 2)) = z.
Proof.
  unfold Qfloor, Qplus, inject_Z. simpl.
  symmetry. apply (Z.div_unique (z * 2 + 1) 2 z 1); lia.
Qed.

Lemma spec_limiter_code_half_steps v k :
  (v == inject_Z k * (1 # 2))%Q -> spec_limiter_code v = k + 13.
Proof.
  intros Hv. unfold spec_limiter_code, round_nearest.
  rewrite <- (Qfloor_plus_half (k + 13)).
  apply Qfloor_comp. rewrite Hv, inject_Z_plus. field.
Qed.

(** C8.  For every [v] with [-6.5 <= v <= 9] that is a multiple of 0.5,
    setting [output_limiter_level] to [v] and reading it back yields [v]
    itself, hence [v] within 0.01; on these values the code of the setter,
    [int((v + 6.5) / 0.5)], is the [round((v + 6.5) / 0.5)] of the
    specification. *)
Theorem output_limiter_level_round_trip (b : bus) (v : Q) (k : Z) :
  (v == inject_Z k * (1 # 2))%Q ->
  (- (13 # 2) <= v /\ v <= 9)%Q ->
  limiter_code v = spec_limiter_code v /\
  exists r : Q,
    fst (output_limiter_level (snd (output_limiter_level_setter v b))) = Return r /\
    (r == v)%Q /\
    (Qabs (r - v) < 1 # 100)%Q.
Proof.
  intros Hk Hv.
  pose proof (limiter_code_range v Hv) as Hc.
  pose proof (limiter_code_half_steps v k Hk) as Ek.
  split.
  { now rewrite Ek, (spec_limiter_code_half_steps v k Hk). }
  rewrite output_limiter_level_setter_accepts by exact Hv.
  unfold output_limiter_level, bind, ret. rewrite RWBits_get_run. cbn [fst].
  rewrite field_of_after_set by (simpl; lia).
  cbn [num_bits _output_limiter_level].
  rewrite Z.mod_small by lia.
  eexists. split; [reflexivity |].
  assert (Hr : (- (13 # 2) + (1 # 2) * inject_Z (limiter_code v) == v)%Q).
  { rewrite Ek, Hk, inject_Z_plus. ring. }
  split; [exact Hr |].
  rewrite Hr.
  assert (E0 : (v - v == 0)%Q) by ring.
  rewrite E0. reflexivity.
Qed.

Lemma output_limiter_level_round_trip_witness :
  limiter_code (- (7 # 2)) = spec_limiter_code (- (7 # 2)) /\
  exists r : Q,
    fst (output_limiter_level
           (snd (output_limiter_level_setter (- (7 # 2)) bus_zero))) = Return r /\
    (r == - (7 # 2))%Q /\
    (Qabs (r - - (7 # 2)) < 1 # 100)%Q.
Proof.
  apply (output_limiter_level_round_trip bus_zero (- (7 # 2)) (-7)).
  - reflexivity.
  - split; unfold Qle; simpl; lia.
Defined.

(** ** attack_time *)

(** C9.  The [attack_time] setter validates and converts nothing: it never
    raises, and for a raw code [r] in [0, 63] it performs one
    read-modify-write of register 0x02 that leaves [r] in the 6-bit field.
    The getter then returns [0.1067 * r] (1.067 for [r = 10]), which is
    not [r] as soon as [r] is not 0. *)
Theorem attack_time_is_raw_write_scaled_read (b : bus) (r : Z) :
  0 <= r <= 63 ->
  (forall (v : Z) (b0 : bus), fst (attack_time_setter v b0) = Return tt) /\
  emits (attack_time_setter r) b
    [BusRead 0x02 (peek b 0x02);
     BusWrite 0x02 (insert_field _attack_control (peek b 0x02) r)] /\
  field_of _attack_control (snd (attack_time_setter r b)) = r /\
  fst (attack_time (snd (attack_time_setter r b)))
    = Return ((1067 # 10000) * inject_Z r)%Q /\
  (r = 10 -> ((1067 # 10000) * inject_Z r == 1067 # 1000)%Q) /\
  (r <> 0 -> ~ ((1067 # 10000) * inject_Z r == inject_Z r)%Q).
Proof.
  intros Hr.
  assert (Hf : field_of _attack_control (snd (attack_time_setter r b)) = r).
  { unfold attack_time_setter. rewrite field_of_after_set by (simpl; lia).
    apply Z.mod_small. simpl. lia. }
  split; [| split; [| split; [| split; [| split]]]].
  - intros v b0. unfold attack_time_setter. now rewrite RWBits_set_run.
  - unfold emits, attack_time_setter. now rewrite RWBits_set_run.
  - exact Hf.
  - unfold attack_time, bind, ret. rewrite RWBits_get_run. cbn [fst].
    now rewrite Hf.
  - intros ->. reflexivity.
  - intros Hnz. unfold Qeq. simpl. lia.
Qed.

Lemma attack_time_is_raw_write_scaled_read_witness :
  field_of _attack_control (snd (attack_time_setter 10 bus_zero)) = 10 /\
  fst (attack_time (snd (attack_time_setter 10 bus_zero)))
    = Return ((1067 # 10000) * inject_Z 10)%Q.
Proof.
  destruct (attack_time_is_raw_write_scaled_read bus_zero 10)
    as (_ & _ & Hf & Hg & _); [lia |].
  split; [exact Hf | exact Hg].
Defined.

(** ** Bus transactions per property access *)

Lemma emits_RWBits_get f b :
  emits (RWBits_get f) b
    [BusRead (register_address f) (peek b (register_address f))].
Proof. reflexivity. Qed.

Lemma emits_RWBits_set f v b :
  emits (RWBits_set f v) b
    [BusRead (register_address f) (peek b (register_address f));
     BusWrite (register_address f)
       (insert_field f (peek b (register_address f)) v)].
Proof. unfold emits. now rewrite RWBits_set_run. Qed.

(** C10, as the specification words it, fails on the [fixed_gain] setter:
    on a chip whose registers read 0 (compression ratio 1:1) an accepted
    set performs three transactions, the first a read of register 0x07. *)
Lemma fixed_gain_setter_three_transactions :
  emits (fixed_gain_setter 10) bus_zero
    [BusRead 0x07 0; BusRead 0x05 0; BusWrite 0x05 10] /\
  ~ (forall (v : Z) (b : bus),
       exists evs, emits (fixed_gain_setter v) b evs /\ (length evs <= 2)%nat).
Proof.
  assert (E : emits (fixed_gain_setter 10) bus_zero
                [BusRead 0x07 0; BusRead 0x05 0; BusWrite 0x05 10])
    by (vm_compute; reflexivity).
  split; [exact E |].
  intros Hall. destruct (Hall 10 bus_zero) as (evs & Hev & Hlen).
  rewrite (emits_unique _ _ _ _ Hev E) in Hlen.
  simpl in Hlen. lia.
Qed.

(** C10, amended.  Every property get performs exactly one bus
    transaction, a byte read.  Every property set other than [fixed_gain]
    performs none when it rejects its value and otherwise exactly two, a
    byte read and then a byte write of the same register.  The
    [fixed_gain] setter performs none when it rejects its value; otherwise
    it first reads register 0x07 (for [compression_ratio]) and all its
    later transactions are on register 0x05, the last two being a byte
    read and then a byte write. *)
Theorem bus_transactions_per_access (b : bus) :
  ((forall f : RWBits,
      emits (RWBits_get f) b
        [BusRead (register_address f) (peek b (register_address f))]) /\
   (forall f : RWBit,
      emits (RWBit_get f) b
        [BusRead (bit_register_address f) (peek b (bit_register_address f))]) /\
   emits attack_time b [BusRead 0x02 (peek b 0x02)] /\
   emits release_time b [BusRead 0x03 (peek b 0x03)] /\
   emits hold_time b [BusRead 0x04 (peek b 0x04)] /\
   emits fixed_gain b [BusRead 0x05 (peek b 0x05)] /\
   emits output_limiter_level b [BusRead 0x05 (peek b 0x05)] /\
   emits max_gain b [BusRead 0x07 (peek b 0x07)]) /\
  ((forall (f : RWBits) (v : Z),
      exists byte,
        emits (RWBits_set f v) b
          [BusRead (register_address f) (peek b (register_address f));
           BusWrite (register_address f) byte]) /\
   (forall (f : RWBit) (on : bool),
      exists byte,
        emits (RWBit_set f on) b
          [BusRead (bit_register_address f) (peek b (bit_register_address f));
           BusWrite (bit_register_address f) byte]) /\
   (forall v : Z,
      exists byte,
        emits (attack_time_setter v) b
          [BusRead 0x02 (peek b 0x02); BusWrite 0x02 byte]) /\
   (forall v : Z,
      exists byte,
        emits (release_time_setter v) b
          [BusRead 0x03 (peek b 0x03); BusWrite 0x03 byte]) /\
   (forall v : Z,
      exists byte,
        emits (hold_time_setter v) b
          [BusRead 0x04 (peek b 0x04); BusWrite 0x04 byte]) /\
   (forall v : Q,
      (~ (- (13 # 2) <= v /\ v <= 9)%Q /\
       emits (output_limiter_level_setter v) b []) \/
      ((- (13 # 2) <= v /\ v <= 9)%Q /\
       exists byte,
         emits (output_limiter_level_setter v) b
           [BusRead 0x05 (peek b 0x05); BusWrite 0x05 byte])) /\
   (forall v : Z,
      (~ (18 <= v <= 30) /\ emits (max_gain_setter v) b []) \/
      (18 <= v <= 30 /\
       exists byte,
         emits (max_gain_setter v) b
           [BusRead 0x07 (peek b 0x07); BusWrite 0x07 byte]))) /\
  (forall v : Z,
     (~ (-28 <= v <= 30) /\ emits (fixed_gain_setter v) b []) \/
     (-28 <= v <= 30 /\
      exists rest old byte,
        emits (fixed_gain_setter v) b
          (BusRead 0x07 (peek b 0x07) :: rest ++
             [BusRead 0x05 old; BusWrite 0x05 byte]) /\
        Forall (fun e => event_reg e = 0x05) rest)).
Proof.
  split; [| split].
  - repeat split; try reflexivity.
  - split; [| split; [| split; [| split; [| split; [| split]]]]].
    + intros f v. eexists. apply emits_RWBits_set.
    + intros f on. eexists. unfold RWBit_set.
      apply (emits_RWBits_set (as_bits f)).
    + intros v. eexists. apply (emits_RWBits_set _attack_control).
    + intros v. eexists. apply (emits_RWBits_set _release_control).
    + intros v. eexists. apply (emits_RWBits_set _hold_time_control).
    + intros v.
      destruct (Qle_bool (- (13 # 2)) v && Qle_bool v 9) eqn:E.
      * right. apply andb_true_iff in E as [E1 E2].
        apply Qle_bool_iff in E1, E2.
        split; [now split |]. eexists. unfold emits.
        rewrite output_limiter_level_setter_accepts by now split.
        apply (emits_RWBits_set _output_limiter_level).
      * left.
        assert (Hout : ~ (- (13 # 2) <= v /\ v <= 9)%Q).
        { intros [H1 H2]. apply Qle_bool_iff in H1, H2.
          rewrite H1, H2 in E. discriminate. }
        split; [exact Hout |]. unfold emits.
        rewrite output_limiter_level_rejects by exact Hout.
        simpl. now rewrite app_nil_r.
    + intros v.
      destruct (Z_le_dec 18 v) as [H1 | H1];
        [destruct (Z_le_dec v 30) as [H2 | H2] |].
      * right. split; [lia |]. eexists. unfold emits.
        rewrite max_gain_setter_accepts by lia.
        apply (emits_RWBits_set _max_gain).
      * left. split; [lia |]. unfold emits.
        rewrite max_gain_rejects by lia. simpl. now rewrite app_nil_r.
      * left. split; [lia |]. unfold emits.
        rewrite max_gain_rejects by lia. simpl. now rewrite app_nil_r.
  - intros v.
    destruct (Z_le_dec (-28) v) as [H1 | H1];
      [destruct (Z_le_dec v 30) as [H2 | H2] |].
    + right. split; [lia |].
      assert (H : -28 <= v <= 30) by lia.
      unfold emits. rewrite (fixed_gain_setter_run v b H). cbn [snd log].
      destruct (field_of compression_ratio b =? 0).
      * exists [], (peek b 0x05),
          (insert_field _fixed_gain_control (peek b 0x05) v).
        split; [reflexivity | constructor].
      * exists [BusRead 0x05 (peek b 0x05);
                BusWrite 0x05
                  (insert_field _fixed_gain_control (peek b 0x05)
                     (Z.land v 0x3f))],
          (insert_field _fixed_gain_control (peek b 0x05) (Z.land v 0x3f)),
          (insert_field _fixed_gain_control (peek b 0x05) v).
        split; [reflexivity | repeat constructor].
    + left. split; [lia |]. unfold emits.
      rewrite fixed_gain_rejects by lia. simpl. now rewrite app_nil_r.
    + left. split; [lia |]. unfold emits.
      rewrite fixed_gain_rejects by lia. simpl. now rewrite app_nil_r.
Qed.

(** * Further properties of the register map *)

(** ** More facts about fields *)

Section BitFieldMore.

Variable f : RWBits.
Hypothesis lowest_nonneg : 0 <= lowest_bit f.
Hypothesis width_nonneg : 0 <= num_bits f.

(** A field read is the register shifted down and cut to the width. *)
Lemma extract_shift_mod byte :
  extract f byte = Z.shiftr byte (lowest_bit f) mod 2 ^ num_bits f.
Proof using lowest_nonneg width_nonneg.
  rewrite <- Z.land_ones by lia.
  apply Z.bits_inj'. intros i Hi.
  rewrite extract_testbit by lia.
  rewrite Z.land_spec, Z.shiftr_spec, Z.testbit_ones_nonneg by lia.
  reflexivity.
Qed.

Lemma extract_range byte : 0 <= extract f byte < 2 ^ num_bits f.
Proof using lowest_nonneg width_nonneg.
  rewrite extract_shift_mod. apply Z.mod_pos_bound.
  apply Z.pow_pos_nonneg; lia.
Qed.

(** Writing back what was read changes nothing. *)
Lemma insert_extract byte :
  lowest_bit f + num_bits f <= 8 ->
  insert_field f byte (extract f byte) = byte.
Proof using lowest_nonneg width_nonneg.
  intros Hfit.
  apply Z.bits_inj'. intros i Hi.
  destruct (in_field f i) eqn:E.
  - rewrite insert_field_inside by assumption.
    unfold in_field in E. apply andb_true_iff in E as [E1 E2].
    apply Z.leb_le in E1. apply Z.ltb_lt in E2.
    rewrite extract_testbit by lia.
    replace (i - lowest_bit f + lowest_bit f) with i by lia.
    replace (i - lowest_bit f <? num_bits f) with true
      by (symmetry; apply Z.ltb_lt; lia).
    now rewrite andb_true_r.
  - apply insert_field_outside;
      [assumption | assumption | now apply extract_range | exact E].
Qed.

(** A write of a value that fits is not seen by a field it does not
    overlap. *)
Lemma extract_insert_disjoint g byte v :
  0 <= lowest_bit g -> 0 <= num_bits g ->
  0 <= v < 2 ^ num_bits f ->
  register_address f = register_address g ->
  overlap f g = false ->
  extract g (insert_field f byte v) = extract g byte.
Proof using lowest_nonneg width_nonneg.
  intros Hl Hw Hv Hreg Hov.
  apply Z.bits_inj'. intros i Hi.
  rewrite !(extract_testbit g) by lia.
  destruct (Z.ltb_spec i (num_bits g)); [| now rewrite !andb_false_r].
  rewrite !andb_true_r.
  apply insert_field_outside; [assumption | assumption | exact Hv |].
  unfold in_field. unfold overlap in Hov.
  rewrite Hreg, Z.eqb_refl in Hov. cbn [andb] in Hov.
  apply andb_false_iff in Hov as [Hov | Hov]; apply Z.ltb_ge in Hov.
  - apply andb_false_iff. left. apply Z.leb_gt. lia.
  - apply andb_false_iff. right. apply Z.ltb_ge. lia.
Qed.

(** A byte stays a byte when a field is written, whatever the value. *)
Lemma insert_field_byte byte v :
  lowest_bit f + num_bits f <= 8 ->
  0 <= byte < 256 ->
  0 <= insert_field f byte v < 256.
Proof using lowest_nonneg width_nonneg.
  intros Hfit Hb.
  assert (E : insert_field f byte v mod 2 ^ 8 = insert_field f byte v).
  { rewrite <- Z.land_ones by lia.
    apply Z.bits_inj'. intros i Hi.
    rewrite Z.land_spec, Z.testbit_ones_nonneg by lia.
    destruct (Z.ltb_spec i 8); [now rewrite andb_true_r |].
    rewrite andb_false_r.
    rewrite insert_field_testbit by lia.
    replace (i <? 8) with false by (symmetry; apply Z.ltb_ge; lia).
    replace (Z.testbit byte i) with false; [now rewrite andb_false_r |].
    rewrite <- (Z.mod_small byte (2 ^ 8)) by (change (2 ^ 8) with 256; lia).
    symmetry. apply Z.mod_pow2_bits_high. lia. }
  rewrite <- E. change (2 ^ 8) with 256. apply Z.mod_pos_bound. lia.
Qed.

End BitFieldMore.

(** The field a write leaves in a field it does not overlap, on the bus. *)
Lemma RWBits_set_keeps_disjoint f g v b :
  0 <= lowest_bit f -> 0 <= num_bits f ->
  0 <= lowest_bit g -> 0 <= num_bits g ->
  0 <= v < 2 ^ num_bits f ->
  overlap f g = false ->
  field_of g (snd (RWBits_set f v b)) = field_of g b.
Proof.
  intros Hlf Hwf Hlg Hwg Hv Hov.
  rewrite RWBits_set_run. cbn [snd]. unfold field_of.
  destruct (Z.eq_dec (register_address f) (register_address g)) as [E | E].
  - rewrite <- E, peek_insert.
    now apply extract_insert_disjoint.
  - now rewrite peek_insert_ne by exact E.
Qed.

Lemma declared_fields_nonneg g :
  In g declared_fields -> 0 <= lowest_bit g /\ 0 <= num_bits g.
Proof.
  unfold declared_fields. simpl.
  intros H. repeat (destruct H as [<- | H]; [simpl; lia |]). contradiction.
Qed.

Lemma declared_fields_fit g : In g declared_fields -> fits_byte g.
Proof.
  unfold declared_fields, fits_byte. simpl.
  intros H. repeat (destruct H as [<- | H]; [simpl; lia |]). contradiction.
Qed.

Lemma field_of_regs g b b' : regs b = regs b' -> field_of g b = field_of g b'.
Proof. intros E. unfold field_of, peek. now rewrite E. Qed.

Lemma max_gain_setter_cases v b :
  (~ (18 <= v <= 30) /\
   max_gain_setter v b = (Raise (ValueError "Max gain must be 18 to 30!"), b)) \/
  (18 <= v <= 30 /\ max_gain_setter v b = RWBits_set _max_gain (v - 18) b).
Proof.
  destruct (Z_le_dec 18 v) as [H1 | H1];
    [destruct (Z_le_dec v 30) as [H2 | H2] |].
  - right. split; [lia |]. apply max_gain_setter_accepts. lia.
  - left. split; [lia |]. apply max_gain_rejects. lia.
  - left. split; [lia |]. apply max_gain_rejects. lia.
Qed.

Lemma output_limiter_level_setter_cases v b :
  (~ (- (13 # 2) <= v /\ v <= 9)%Q /\
   output_limiter_level_setter v b
     = (Raise (ValueError "Output limiter level must be -6.5 to 9!"), b)) \/
  ((- (13 # 2) <= v /\ v <= 9)%Q /\
   output_limiter_level_setter v b
     = RWBits_set _output_limiter_level (limiter_code v) b).
Proof.
  destruct (Qle_bool (- (13 # 2)) v && Qle_bool v 9) eqn:E.
  - right. apply andb_true_iff in E as [E1 E2]. apply Qle_bool_iff in E1, E2.
    split; [now split |]. apply output_limiter_level_setter_accepts. now split.
  - left.
    assert (Hout : ~ (- (13 # 2) <= v /\ v <= 9)%Q).
    { intros [H1 H2]. apply Qle_bool_iff in H1, H2.
      rewrite H1, H2 in E. discriminate. }
    split; [exact Hout |]. now apply output_limiter_level_rejects.
Qed.

Lemma fixed_gain_setter_cases v b :
  (~ (-28 <= v <= 30) /\
   fixed_gain_setter v b = (Raise (ValueError "Gain must be -28 to 30!"), b)) \/
  (-28 <= v <= 30 /\
   fst (fixed_gain_setter v b) = Return tt /\
   regs (snd (fixed_gain_setter v b))
     = regs (snd (RWBits_set _fixed_gain_control v b))).
Proof.
  destruct (Z_le_dec (-28) v) as [H1 | H1];
    [destruct (Z_le_dec v 30) as [H2 | H2] |].
  - right. assert (H : -28 <= v <= 30) by lia.
    split; [exact H |].
    rewrite (fixed_gain_setter_run v b H), RWBits_set_run. now split.
  - left. split; [lia |]. apply fixed_gain_rejects. lia.
  - left. split; [lia |]. apply fixed_gain_rejects. lia.
Qed.

(** ** Which declared fields share bits *)

(** X1.  Among the sixteen bit-fields the class declares, the only two distinct
    ones that share a bit are [_fixed_gain_control] and
    [_output_limiter_level]. *)
Theorem declared_fields_overlap_only_gain_and_limiter (f g : RWBits) :
  In f declared_fields -> In g declared_fields ->
  overlap f g = true ->
  f = g \/
  (f = _fixed_gain_control /\ g = _output_limiter_level) \/
  (f = _output_limiter_level /\ g = _fixed_gain_control).
Proof.
  unfold declared_fields. simpl. intros Hf Hg Hov.
  repeat (destruct Hf as [<- | Hf]);
    try contradiction;
    repeat (destruct Hg as [<- | Hg]);
    try contradiction;
    first [ left; reflexivity
          | right; left; split; reflexivity
          | right; right; split; reflexivity
          | vm_compute in Hov; discriminate Hov ].
Qed.

Lemma declared_fields_overlap_only_gain_and_limiter_witness :
  _fixed_gain_control = _output_limiter_level \/
  (_fixed_gain_control = _fixed_gain_control /\
   _output_limiter_level = _output_limiter_level) \/
  (_fixed_gain_control = _output_limiter_level /\
   _output_limiter_level = _fixed_gain_control).
Proof.
  apply (declared_fields_overlap_only_gain_and_limiter
           _fixed_gain_control _output_limiter_level).
  - unfold declared_fields. simpl. tauto.
  - unfold declared_fields. simpl. tauto.
  - reflexivity.
Defined.

(** ** What a setter leaves alone *)

Lemma raw_setter_keeps f g v b :
  In f declared_fields -> In g declared_fields ->
  0 <= v < 2 ^ num_bits f ->
  overlap f g = false ->
  field_of g (snd (RWBits_set f v b)) = field_of g b.
Proof.
  intros Hf Hg Hv Hov.
  destruct (declared_fields_nonneg f Hf), (declared_fields_nonneg g Hg).
  now apply RWBits_set_keeps_disjoint.
Qed.

(** A write, of any value, is not seen in another register. *)
Lemma other_register_keeps f g v b :
  register_address f <> register_address g ->
  field_of g (snd (RWBits_set f v b)) = field_of g b.
Proof.
  intros Hne. unfold field_of. now rewrite RWBits_set_frame by congruence.
Qed.

(** The timing fields and the fixed-gain field share their registers with
    no declared field they do not overlap. *)
Lemma lone_field_register f g :
  In f [_attack_control; _release_control; _hold_time_control;
        _fixed_gain_control] ->
  In g declared_fields ->
  overlap f g = false ->
  register_address f <> register_address g.
Proof.
  unfold declared_fields. simpl. intros Hf Hg Hov.
  repeat (destruct Hf as [<- | Hf]);
    try contradiction;
    repeat (destruct Hg as [<- | Hg]);
    try contradiction;
    first [ discriminate Hov | simpl; lia ].
Qed.

Lemma In_attack : In _attack_control declared_fields.
Proof. unfold declared_fields. simpl. tauto. Qed.
Lemma In_release : In _release_control declared_fields.
Proof. unfold declared_fields. simpl. tauto. Qed.
Lemma In_hold : In _hold_time_control declared_fields.
Proof. unfold declared_fields. simpl. tauto. Qed.
Lemma In_gain : In _fixed_gain_control declared_fields.
Proof. unfold declared_fields. simpl. tauto. Qed.
Lemma In_limiter : In _output_limiter_level declared_fields.
Proof. unfold declared_fields. simpl. tauto. Qed.
Lemma In_max_gain : In _max_gain declared_fields.
Proof. unfold declared_fields. simpl. tauto. Qed.
Lemma In_compression : In compression_ratio declared_fields.
Proof. unfold declared_fields. simpl. tauto. Qed.

(** X2.  Whatever value it is called with, accepted or rejected, a property
    setter changes no declared field that shares no bit with the field the
    setter writes; the same holds for a raw field assigned a value that
    fits its width. *)
Theorem setters_keep_disjoint_fields (g : RWBits) (b : bus) :
  In g declared_fields ->
  (forall v : Z, overlap _attack_control g = false ->
     field_of g (snd (attack_time_setter v b)) = field_of g b) /\
  (forall v : Z, overlap _release_control g = false ->
     field_of g (snd (release_time_setter v b)) = field_of g b) /\
  (forall v : Z, overlap _hold_time_control g = false ->
     field_of g (snd (hold_time_setter v b)) = field_of g b) /\
  (forall v : Z, overlap _fixed_gain_control g = false ->
     field_of g (snd (fixed_gain_setter v b)) = field_of g b) /\
  (forall v : Q, overlap _output_limiter_level g = false ->
     field_of g (snd (output_limiter_level_setter v b)) = field_of g b) /\
  (forall v : Z, overlap _max_gain g = false ->
     field_of g (snd (max_gain_setter v b)) = field_of g b) /\
  (forall (f : RWBits) (v : Z),
     In f declared_fields -> 0 <= v < 2 ^ num_bits f ->
     overlap f g = false ->
     field_of g (snd (RWBits_set f v b)) = field_of g b).
Proof.
  intros Hg. repeat split.
  - intros v Hov. apply other_register_keeps.
    apply lone_field_register; [simpl; tauto | exact Hg | exact Hov].
  - intros v Hov. apply other_register_keeps.
    apply lone_field_register; [simpl; tauto | exact Hg | exact Hov].
  - intros v Hov. apply other_register_keeps.
    apply lone_field_register; [simpl; tauto | exact Hg | exact Hov].
  - intros v Hov.
    destruct (fixed_gain_setter_cases v b) as [[_ E] | (_ & _ & E)].
    + now rewrite E.
    + rewrite (field_of_regs g _ _ E). apply other_register_keeps.
      apply lone_field_register; [simpl; tauto | exact Hg | exact Hov].
  - intros v Hov.
    destruct (output_limiter_level_setter_cases v b) as [[_ E] | [Hin E]];
      rewrite E; [reflexivity |].
    pose proof (limiter_code_range v Hin) as Hc.
    apply (raw_setter_keeps _ g _ b In_limiter Hg); [simpl; lia | exact Hov].
  - intros v Hov.
    destruct (max_gain_setter_cases v b) as [[_ E] | [Hin E]];
      rewrite E; [reflexivity |].
    apply (raw_setter_keeps _ g _ b In_max_gain Hg); [simpl; lia | exact Hov].
  - intros f v Hf Hv Hov. now apply raw_setter_keeps.
Qed.

Lemma setters_keep_disjoint_fields_witness :
  field_of compression_ratio (snd (max_gain_setter 24 bus_ratio_4_1))
    = field_of compression_ratio bus_ratio_4_1.
Proof.
  destruct (setters_keep_disjoint_fields compression_ratio bus_ratio_4_1
              In_compression) as (_ & _ & _ & _ & _ & H & _).
  apply H. reflexivity.
Defined.

(** ** Single bits and raw settings *)

Lemma field_of_bit_after_set f on b :
  0 <= bit f <= 7 ->
  field_of (as_bits f) (snd (RWBit_set f on b)) = (if on then 1 else 0).
Proof.
  intros H. unfold RWBit_set.
  rewrite field_of_after_set by (simpl; lia).
  cbn [num_bits as_bits]. now destruct on.
Qed.

(** X3.  A single-bit property reads back the boolean it was set to; this holds
    for each of the eight bits the class declares. *)
Theorem bit_property_round_trip (f : RWBit) (on : bool) (b : bus) :
  In (as_bits f) declared_fields ->
  fst (RWBit_get f (snd (RWBit_set f on b))) = Return on.
Proof.
  intros Hf.
  destruct (declared_fields_fit _ Hf) as (Hl & _ & Hfit). cbn in Hl, Hfit.
  unfold RWBit_get, bind, ret. rewrite RWBits_get_run. cbn [fst].
  rewrite field_of_bit_after_set by lia.
  now destruct on.
Qed.

Lemma bit_property_round_trip_witness :
  fst (RWBit_get amplifier_shutdown
         (snd (RWBit_set amplifier_shutdown true bus_reg1))) = Return true.
Proof.
  apply (bit_property_round_trip amplifier_shutdown true bus_reg1).
  unfold declared_fields. simpl. tauto.
Defined.

(** X5.  [compression_ratio] and [noisegate_threshold] are assigned without any
    check: the value read back is the value assigned reduced modulo 4, so
    each of the four documented settings reads back as itself and the
    settings are told apart. *)
Theorem raw_settings_round_trip (b : bus) (v : Z) :
  fst (RWBits_get compression_ratio (snd (RWBits_set compression_ratio v b)))
    = Return (v mod 4) /\
  fst (RWBits_get noisegate_threshold (snd (RWBits_set noisegate_threshold v b)))
    = Return (v mod 4) /\
  (In v [COMPRESSION_1_1; COMPRESSION_2_1; COMPRESSION_4_1; COMPRESSION_8_1] ->
   v mod 4 = v) /\
  (In v [NOISEGATE_1; NOISEGATE_4; NOISEGATE_10; NOISEGATE_20] ->
   v mod 4 = v) /\
  NoDup [COMPRESSION_1_1; COMPRESSION_2_1; COMPRESSION_4_1; COMPRESSION_8_1] /\
  NoDup [NOISEGATE_1; NOISEGATE_4; NOISEGATE_10; NOISEGATE_20].
Proof.
  split; [| split; [| split; [| split; [| split]]]].
  - rewrite fst_RWBits_get, field_of_after_set by (simpl; lia). reflexivity.
  - rewrite fst_RWBits_get, field_of_after_set by (simpl; lia). reflexivity.
  - simpl. intros [<- | [<- | [<- | [<- | []]]]]; reflexivity.
  - simpl. intros [<- | [<- | [<- | [<- | []]]]]; reflexivity.
  - apply (bool_decide_unpack _). vm_compute. exact I.
  - apply (bool_decide_unpack _). vm_compute. exact I.
Qed.

Lemma raw_settings_round_trip_witness :
  fst (RWBits_get compression_ratio
         (snd (RWBits_set compression_ratio COMPRESSION_8_1 bus_ratio_4_1)))
    = Return (COMPRESSION_8_1 mod 4) /\
  COMPRESSION_8_1 mod 4 = COMPRESSION_8_1.
Proof.
  destruct (raw_settings_round_trip bus_ratio_4_1 COMPRESSION_8_1)
    as (Hc & _ & Hid & _).
  split; [exact Hc |]. apply Hid. simpl. tauto.
Defined.

(** ** The timing properties *)

(** X6.  The three timing setters check nothing: whatever integer is assigned,
    the 6-bit field keeps it modulo 64 and the getter returns that code
    times the step (0.1067 ms for attack, 0.0137 ms for release and hold);
    a code in [0, 63] is kept as it is. *)
Theorem timing_setters_wrap_modulo_64 (b : bus) (v : Z) :
  fst (attack_time (snd (attack_time_setter v b)))
    = Return ((1067 # 10000) * inject_Z (v mod 64))%Q /\
  fst (release_time (snd (release_time_setter v b)))
    = Return ((137 # 10000) * inject_Z (v mod 64))%Q /\
  fst (hold_time (snd (hold_time_setter v b)))
    = Return ((137 # 10000) * inject_Z (v mod 64))%Q /\
  fst (attack_time_setter v b) = Return tt /\
  fst (release_time_setter v b) = Return tt /\
  fst (hold_time_setter v b) = Return tt /\
  (0 <= v <= 63 -> v mod 64 = v).
Proof.
  split; [| split; [| split; [| split; [| split; [| split]]]]].
  - unfold attack_time, attack_time_setter, bind, ret.
    rewrite RWBits_get_run. cbn [fst].
    rewrite field_of_after_set by (simpl; lia). reflexivity.
  - unfold release_time, release_time_setter, bind, ret.
    rewrite RWBits_get_run. cbn [fst].
    rewrite field_of_after_set by (simpl; lia). reflexivity.
  - unfold hold_time, hold_time_setter, bind, ret.
    rewrite RWBits_get_run. cbn [fst].
    rewrite field_of_after_set by (simpl; lia). reflexivity.
  - unfold attack_time_setter. now rewrite RWBits_set_run.
  - unfold release_time_setter. now rewrite RWBits_set_run.
  - unfold hold_time_setter. now rewrite RWBits_set_run.
  - intros H. apply Z.mod_small. lia.
Qed.

Lemma timing_setters_wrap_modulo_64_witness :
  fst (release_time (snd (release_time_setter 40 bus_zero)))
    = Return ((137 # 10000) * inject_Z (40 mod 64))%Q /\
  40 mod 64 = 40.
Proof.
  destruct (timing_setters_wrap_modulo_64 bus_zero 40)
    as (_ & Hr & _ & _ & _ & _ & Hid).
  split; [exact Hr |]. apply Hid. lia.
Defined.

(** A code past the field comes back wrapped: 64 reads as 0 ms, and -1 as
    the longest hold time. *)
Example hold_time_wraps :
  fst (hold_time (snd (hold_time_setter 64 bus_zero)))
    = Return ((137 # 10000) * inject_Z 0)%Q /\
  fst (hold_time (snd (hold_time_setter (-1) bus_zero)))
    = Return ((137 # 10000) * inject_Z 63)%Q.
Proof. split; vm_compute; reflexivity. Qed.

(** ** What the getters can return *)

Lemma field_of_range g b :
  0 <= lowest_bit g -> 0 <= num_bits g ->
  0 <= field_of g b < 2 ^ num_bits g.
Proof. intros Hl Hw. unfold field_of. now apply extract_range. Qed.

Lemma scaled_code_range (n d : positive) (raw : Z) :
  0 <= raw <= 63 ->
  (0 <= (Z.pos n # d) * inject_Z raw /\
   (Z.pos n # d) * inject_Z raw <= (Z.pos n # d) * inject_Z 63)%Q.
Proof.
  intros H. unfold Qle, Qmult, inject_Z. simpl. split; nia.
Qed.

(** X7.  Whatever the registers hold, [fixed_gain] reads a value in [0, 63]
    (never a negative gain), [max_gain] a value in [18, 33],
    [output_limiter_level] a value in [-6.5, 9], and the timing getters a
    value between 0 and 63 steps. *)
Theorem getter_ranges (b : bus) :
  (exists g, fst (fixed_gain b) = Return g /\ 0 <= g <= 63) /\
  (exists g, fst (max_gain b) = Return g /\ 18 <= g <= 33) /\
  (exists q, fst (output_limiter_level b) = Return q /\
             (- (13 # 2) <= q /\ q <= 9)%Q) /\
  (exists q, fst (attack_time b) = Return q /\
             (0 <= q /\ q <= (1067 # 10000) * inject_Z 63)%Q) /\
  (exists q, fst (release_time b) = Return q /\
             (0 <= q /\ q <= (137 # 10000) * inject_Z 63)%Q) /\
  (exists q, fst (hold_time b) = Return q /\
             (0 <= q /\ q <= (137 # 10000) * inject_Z 63)%Q).
Proof.
  assert (Hg : 0 <= field_of _fixed_gain_control b < 2 ^ 6)
    by (apply (field_of_range _fixed_gain_control); simpl; lia).
  assert (Hm : 0 <= field_of _max_gain b < 2 ^ 4)
    by (apply (field_of_range _max_gain); simpl; lia).
  assert (Hl : 0 <= field_of _output_limiter_level b < 2 ^ 5)
    by (apply (field_of_range _output_limiter_level); simpl; lia).
  assert (Ha : 0 <= field_of _attack_control b < 2 ^ 6)
    by (apply (field_of_range _attack_control); simpl; lia).
  assert (Hr : 0 <= field_of _release_control b < 2 ^ 6)
    by (apply (field_of_range _release_control); simpl; lia).
  assert (Hh : 0 <= field_of _hold_time_control b < 2 ^ 6)
    by (apply (field_of_range _hold_time_control); simpl; lia).
  split; [| split; [| split; [| split; [| split]]]].
  - unfold fixed_gain. rewrite fst_RWBits_get.
    eexists. split; [reflexivity |]. lia.
  - unfold max_gain, bind, ret. rewrite RWBits_get_run. cbn [fst].
    eexists. split; [reflexivity |]. lia.
  - unfold output_limiter_level, bind, ret. rewrite RWBits_get_run. cbn [fst].
    eexists. split; [reflexivity |].
    assert (0 <= field_of _output_limiter_level b <= 31) as H by lia.
    revert H. generalize (field_of _output_limiter_level b). intros raw H.
    unfold Qle, Qplus, Qmult, Qopp, inject_Z. simpl. split; lia.
  - unfold attack_time, bind, ret. rewrite RWBits_get_run. cbn [fst].
    eexists. split; [reflexivity |]. apply scaled_code_range. lia.
  - unfold release_time, bind, ret. rewrite RWBits_get_run. cbn [fst].
    eexists. split; [reflexivity |]. apply scaled_code_range. lia.
  - unfold hold_time, bind, ret. rewrite RWBits_get_run. cbn [fst].
    eexists. split; [reflexivity |]. apply scaled_code_range. lia.
Qed.

(** ** Writing back what was read *)

Lemma write_back_same f l b :
  0 <= lowest_bit f -> 0 <= num_bits f ->
  lowest_bit f + num_bits f <= 8 ->
  forall r,
    peek (snd (RWBits_set f (field_of f b) (Bus (regs b) l))) r = peek b r.
Proof.
  intros Hl Hw Hfit r. rewrite RWBits_set_run. cbn [snd regs].
  change (peek (Bus (regs b) l) (register_address f))
    with (peek b (register_address f)).
  unfold field_of. rewrite insert_extract by assumption.
  destruct (Z.eq_dec (register_address f) r) as [<- | E].
  - apply peek_insert.
  - now rewrite peek_insert_ne by exact E.
Qed.

Lemma limiter_code_of_level raw :
  limiter_code (- (13 # 2) + (1 # 2) * inject_Z raw) = raw.
Proof.
  rewrite (limiter_code_half_steps _ (raw - 13)); [lia |].
  unfold Qeq, Qplus, Qmult, Qopp, inject_Z. simpl. lia.
Qed.

(** X8.  Assigning to a validated property the value just read from it never
    changes a register.  For [output_limiter_level] the assignment always
    succeeds.  For [max_gain] and [fixed_gain] it succeeds when the value
    read is at most 30 and raises [ValueError] otherwise: the getters can
    return values (up to 33, up to 63) that the setters reject. *)
Theorem write_back_what_was_read (b : bus) :
  (exists q,
     fst (output_limiter_level b) = Return q /\
     fst (output_limiter_level_setter q (snd (output_limiter_level b)))
       = Return tt /\
     (forall r,
        peek (snd (output_limiter_level_setter q (snd (output_limiter_level b)))) r
          = peek b r)) /\
  (exists g,
     fst (max_gain b) = Return g /\
     (forall r, peek (snd (max_gain_setter g (snd (max_gain b)))) r = peek b r) /\
     (g <= 30 -> fst (max_gain_setter g (snd (max_gain b))) = Return tt) /\
     (30 < g ->
      fst (max_gain_setter g (snd (max_gain b)))
        = Raise (ValueError "Max gain must be 18 to 30!"))) /\
  (exists g,
     fst (fixed_gain b) = Return g /\
     (forall r, peek (snd (fixed_gain_setter g (snd (fixed_gain b)))) r = peek b r) /\
     (g <= 30 -> fst (fixed_gain_setter g (snd (fixed_gain b))) = Return tt) /\
     (30 < g ->
      fst (fixed_gain_setter g (snd (fixed_gain b)))
        = Raise (ValueError "Gain must be -28 to 30!"))).
Proof.
  split; [| split].
  - exists (- (13 # 2) + (1 # 2) * inject_Z (field_of _output_limiter_level b))%Q.
    split; [reflexivity |].
    assert (Hr : 0 <= field_of _output_limiter_level b < 2 ^ 5)
      by (apply (field_of_range _output_limiter_level); simpl; lia).
    set (raw := field_of _output_limiter_level b) in *.
    assert (Hin : (- (13 # 2) <= - (13 # 2) + (1 # 2) * inject_Z raw /\
                   - (13 # 2) + (1 # 2) * inject_Z raw <= 9)%Q).
    { unfold Qle, Qplus, Qmult, Qopp, inject_Z. simpl. split; lia. }
    rewrite output_limiter_level_setter_accepts by exact Hin.
    rewrite limiter_code_of_level.
    split.
    + now rewrite RWBits_set_run.
    + apply write_back_same; simpl; lia.
  - exists (field_of _max_gain b + 18).
    split; [reflexivity |].
    assert (Hr : 0 <= field_of _max_gain b < 2 ^ 4)
      by (apply (field_of_range _max_gain); simpl; lia).
    set (b' := snd (max_gain b)).
    destruct (max_gain_setter_cases (field_of _max_gain b + 18) b')
      as [[Hout E] | [Hin E]]; rewrite E; cbn [fst snd].
    + split; [reflexivity |]. split; [intros; lia | reflexivity].
    + replace (field_of _max_gain b + 18 - 18) with (field_of _max_gain b) by lia.
      split; [apply write_back_same; simpl; lia |].
      split; [intros _; now rewrite RWBits_set_run | intros; lia].
  - exists (field_of _fixed_gain_control b).
    split; [reflexivity |].
    assert (Hr : 0 <= field_of _fixed_gain_control b < 2 ^ 6)
      by (apply (field_of_range _fixed_gain_control); simpl; lia).
    set (b' := snd (fixed_gain b)).
    destruct (fixed_gain_setter_cases (field_of _fixed_gain_control b) b')
      as [[Hout E] | (Hin & Eret & E)].
    + rewrite E. cbn [fst snd].
      split; [reflexivity |]. split; [intros; lia | reflexivity].
    + split.
      * intros r. unfold peek at 1. rewrite E. fold (peek (snd
          (RWBits_set _fixed_gain_control (field_of _fixed_gain_control b) b')) r).
        apply write_back_same; simpl; lia.
      * split; [intros _; exact Eret | intros; lia].
Qed.

Lemma write_back_what_was_read_witness :
  exists g,
    fst (max_gain bus_ratio_4_1) = Return g /\
    (forall r, peek (snd (max_gain_setter g (snd (max_gain bus_ratio_4_1)))) r
               = peek bus_ratio_4_1 r) /\
    (g <= 30 ->
     fst (max_gain_setter g (snd (max_gain bus_ratio_4_1))) = Return tt) /\
    (30 < g ->
     fst (max_gain_setter g (snd (max_gain bus_ratio_4_1)))
       = Raise (ValueError "Max gain must be 18 to 30!")).
Proof. apply (write_back_what_was_read bus_ratio_4_1). Defined.

(** With 0xf0 in register 0x07 [max_gain] reads 33, which its own setter
    rejects. *)
Example max_gain_33_is_rejected :
  fst (max_gain (Bus {[ 0x07 := 0xf0 ]} [])) = Return 33 /\
  fst (max_gain_setter 33 (Bus {[ 0x07 := 0xf0 ]} []))
    = Raise (ValueError "Max gain must be 18 to 30!").
Proof. split; vm_compute; reflexivity. Qed.

(** ** The limiter level is cut down to a half step *)

Lemma limiter_code_floor v :
  (- (13 # 2) <= v /\ v <= 9)%Q ->
  let q := Z.pos (Qden v) in
  2 * q * limiter_code v <= 4 * Qnum v + 26 * q < 2 * q * (limiter_code v + 1).
Proof.
  intros [Hlo Hhi] q. rewrite limiter_code_unfold. fold q.
  unfold Qle in Hlo. simpl in Hlo. fold q in Hlo.
  assert (Hq : 0 < q) by (unfold q; lia).
  rewrite Z.quot_div_nonneg by lia.
  pose proof (Z.div_mod ((Qnum v * 2 + 13 * q) * 2) (q * 2) ltac:(lia)) as Hdm.
  pose proof (Z.mod_pos_bound ((Qnum v * 2 + 13 * q) * 2) (q * 2) ltac:(lia)) as Hm.
  set (code := (Qnum v * 2 + 13 * q) * 2 / (q * 2)) in *.
  set (rem := ((Qnum v * 2 + 13 * q) * 2) mod (q * 2)) in *.
  nia.
Qed.

Lemma limiter_code_quarter_steps v n :
  (v == inject_Z n * (1 # 4))%Q ->
  (- (13 # 2) <= v)%Q ->
  limiter_code v = (n + 26) / 2.
Proof.
  intros Hn Hlo. rewrite limiter_code_unfold.
  unfold Qeq in Hn. simpl in Hn.
  unfold Qle in Hlo. simpl in Hlo.
  set (q := Z.pos (Qden v)) in *.
  assert (Hq : 0 < q) by (unfold q; lia).
  replace ((Qnum v * 2 + 13 * q) * 2) with ((n + 26) * q) by lia.
  replace (q * 2) with (2 * q) by lia.
  rewrite Z.quot_div_nonneg by nia.
  apply Z.div_mul_cancel_r; lia.
Qed.

(** X9.  The limiter setter truncates, it does not round to the nearest
    step: for every accepted level [v] that is a multiple of 0.25 (such
    levels and all the sums and quotients the setter forms from them are
    exact in binary floating point), the code stored is
    [(4 * v + 26) / 2] rounded down, and the level read back is the largest
    half step not above [v]; so 3.75 reads back as 3.5. *)
Theorem output_limiter_level_rounds_down (b : bus) (v : Q) (n : Z) :
  (v == inject_Z n * (1 # 4))%Q ->
  (- (13 # 2) <= v /\ v <= 9)%Q ->
  limiter_code v = (n + 26) / 2 /\
  exists r : Q,
    fst (output_limiter_level (snd (output_limiter_level_setter v b))) = Return r /\
    r = (- (13 # 2) + (1 # 2) * inject_Z (limiter_code v))%Q /\
    (r <= v /\ v < r + (1 # 2))%Q.
Proof.
  intros Hn Hv.
  split; [apply limiter_code_quarter_steps; [exact Hn | apply Hv] |].
  pose proof (limiter_code_range v Hv) as Hc.
  pose proof (limiter_code_floor v Hv) as Hfl. cbv zeta in Hfl.
  rewrite output_limiter_level_setter_accepts by exact Hv.
  unfold output_limiter_level, bind, ret. rewrite RWBits_get_run. cbn [fst].
  rewrite field_of_after_set by (simpl; lia).
  cbn [num_bits _output_limiter_level].
  rewrite Z.mod_small by lia.
  eexists. split; [reflexivity |]. split; [reflexivity |].
  revert Hfl. generalize (limiter_code v). intros code Hfl.
  clear Hn. destruct v as [p q]. simpl in Hfl.
  unfold Qle, Qlt, Qplus, Qmult, Qopp, inject_Z. simpl.
  split; nia.
Qed.

Lemma output_limiter_level_rounds_down_witness :
  limiter_code (15 # 4) = (15 + 26) / 2 /\
  exists r : Q,
    fst (output_limiter_level
           (snd (output_limiter_level_setter (15 # 4) bus_zero))) = Return r /\
    r = (- (13 # 2) + (1 # 2) * inject_Z (limiter_code (15 # 4)))%Q /\
    (r <= 15 # 4 /\ 15 # 4 < r + (1 # 2))%Q.
Proof.
  apply (output_limiter_level_rounds_down bus_zero (15 # 4) 15).
  - reflexivity.
  - split; unfold Qle; simpl; lia.
Defined.

(** 3.75 dB is stored as code 20 and reads back as 3.5 dB. *)
Example output_limiter_level_3_75 :
  limiter_code (15 # 4) = 20 /\
  fst (output_limiter_level
         (snd (output_limiter_level_setter (15 # 4) bus_zero)))
    = Return (- (13 # 2) + (1 # 2) * inject_Z 20)%Q.
Proof. split; vm_compute; reflexivity. Qed.

(** ** fixed_gain: encoding and effect on the limiter *)

Lemma limiter_over_gain byte g :
  extract _output_limiter_level (insert_field _fixed_gain_control byte g)
    = g mod 2 ^ 5.
Proof.
  rewrite <- Z.land_ones by lia.
  apply Z.bits_inj'. intros i Hi.
  rewrite (extract_testbit _output_limiter_level) by (simpl; lia).
  rewrite Z.land_spec, Z.testbit_ones_nonneg by lia.
  cbn [lowest_bit num_bits _output_limiter_level].
  rewrite Z.add_0_r.
  destruct (Z.ltb_spec i 5); [| now rewrite !andb_false_r].
  rewrite (insert_field_inside _fixed_gain_control);
    [| simpl; lia | simpl; lia | simpl; lia |].
  - cbn [lowest_bit _fixed_gain_control]. now rewrite Z.sub_0_r.
  - unfold in_field. cbn [lowest_bit num_bits _fixed_gain_control].
    apply andb_true_iff. split; [apply Z.leb_le | apply Z.ltb_lt]; lia.
Qed.

(** X10.  An accepted [fixed_gain] set also changes the output limiter level:
    [output_limiter_level] then reads [-6.5 + 0.5 * (g mod 32)], whatever
    level was set before. *)
Theorem fixed_gain_overwrites_limiter (b : bus) (g : Z) :
  -28 <= g <= 30 ->
  fst (output_limiter_level (snd (fixed_gain_setter g b)))
    = Return (- (13 # 2) + (1 # 2) * inject_Z (g mod 32))%Q.
Proof.
  intros H.
  unfold output_limiter_level, bind, ret. rewrite RWBits_get_run. cbn [fst].
  rewrite (fixed_gain_setter_run g b H). cbn [snd].
  unfold field_of. cbn [register_address _output_limiter_level].
  rewrite peek_insert, limiter_over_gain. reflexivity.
Qed.

Lemma fixed_gain_overwrites_limiter_witness :
  fst (output_limiter_level (snd (fixed_gain_setter (-16) bus_zero)))
    = Return (- (13 # 2) + (1 # 2) * inject_Z ((-16) mod 32))%Q.
Proof. apply (fixed_gain_overwrites_limiter bus_zero (-16)). lia. Defined.

Lemma mod_64_negative v : -64 <= v < 0 -> v mod 64 = v + 64.
Proof. intros H. symmetry. apply (Z.mod_unique v 64 (-1) (v + 64)); lia. Qed.

(** X11.  After an accepted [fixed_gain] set the 6-bit field holds the two's
    complement code of the gain: a code below 32 is the gain itself, a code
    from 32 on is the gain plus 64.  Two different legal gains therefore
    never leave the same code. *)
Theorem fixed_gain_field_is_twos_complement (b b' : bus) (v v' : Z) :
  -28 <= v <= 30 ->
  -28 <= v' <= 30 ->
  let raw := field_of _fixed_gain_control (snd (fixed_gain_setter v b)) in
  0 <= raw <= 63 /\
  (if raw <? 32 then raw else raw - 64) = v /\
  (field_of _fixed_gain_control (snd (fixed_gain_setter v' b')) = raw -> v' = v).
Proof.
  intros H H' raw. subst raw.
  rewrite !fixed_gain_field_after_set by assumption.
  change (2 ^ 6) with 64.
  destruct (Z_lt_dec v 0) as [Hn | Hp], (Z_lt_dec v' 0) as [Hn' | Hp'].
  - rewrite (mod_64_negative v) by lia.
    rewrite (mod_64_negative v') by lia.
    replace (v + 64 <? 32) with false by (symmetry; apply Z.ltb_ge; lia).
    repeat split; lia.
  - rewrite (mod_64_negative v) by lia.
    rewrite (Z.mod_small v') by lia.
    replace (v + 64 <? 32) with false by (symmetry; apply Z.ltb_ge; lia).
    repeat split; lia.
  - rewrite (Z.mod_small v) by lia.
    rewrite (mod_64_negative v') by lia.
    replace (v <? 32) with true by (symmetry; apply Z.ltb_lt; lia).
    repeat split; lia.
  - rewrite (Z.mod_small v), (Z.mod_small v') by lia.
    replace (v <? 32) with true by (symmetry; apply Z.ltb_lt; lia).
    repeat split; lia.
Qed.

Lemma fixed_gain_field_is_twos_complement_witness :
  let raw := field_of _fixed_gain_control
               (snd (fixed_gain_setter (-16) bus_ratio_4_1)) in
  0 <= raw <= 63 /\
  (if raw <? 32 then raw else raw - 64) = -16 /\
  (field_of _fixed_gain_control (snd (fixed_gain_setter 30 bus_zero)) = raw ->
   30 = -16).
Proof.
  apply (fixed_gain_field_is_twos_complement bus_ratio_4_1 bus_zero (-16) 30);
    lia.
Defined.

(** ** Setting a property twice *)

Lemma RWBits_set_twice f u v b :
  0 <= lowest_bit f -> 0 <= num_bits f ->
  0 <= u < 2 ^ num_bits f ->
  regs (snd (RWBits_set f v (snd (RWBits_set f u b))))
    = regs (snd (RWBits_set f v b)).
Proof.
  intros Hl Hw Hu. rewrite !RWBits_set_run. cbn [snd regs].
  rewrite peek_insert.
  rewrite insert_field_twice by assumption.
  apply insert_insert_eq.
Qed.

(** X12.  The last accepted value wins: setting [max_gain] (or
    [output_limiter_level]) to any value, accepted or rejected, and then to
    an accepted one leaves the registers that the second set alone
    leaves. *)
Theorem last_accepted_set_wins (b : bus) :
  (forall u v : Z,
     18 <= v <= 30 ->
     regs (snd (max_gain_setter v (snd (max_gain_setter u b))))
       = regs (snd (max_gain_setter v b))) /\
  (forall u v : Q,
     (- (13 # 2) <= v /\ v <= 9)%Q ->
     regs (snd (output_limiter_level_setter v
                  (snd (output_limiter_level_setter u b))))
       = regs (snd (output_limiter_level_setter v b))).
Proof.
  split.
  - intros u v Hv.
    rewrite !(max_gain_setter_accepts v) by exact Hv.
    destruct (max_gain_setter_cases u b) as [[_ E] | [Hu E]]; rewrite E.
    + reflexivity.
    + apply RWBits_set_twice; simpl; lia.
  - intros u v Hv.
    rewrite !(output_limiter_level_setter_accepts v) by exact Hv.
    destruct (output_limiter_level_setter_cases u b) as [[_ E] | [Hu E]];
      rewrite E.
    + reflexivity.
    + pose proof (limiter_code_range u Hu) as Hc.
      apply RWBits_set_twice; simpl; lia.
Qed.

Lemma last_accepted_set_wins_witness :
  regs (snd (max_gain_setter 24 (snd (max_gain_setter 30 bus_ratio_4_1))))
    = regs (snd (max_gain_setter 24 bus_ratio_4_1)) /\
  regs (snd (output_limiter_level_setter 9
               (snd (output_limiter_level_setter 10 bus_zero))))
    = regs (snd (output_limiter_level_setter 9 bus_zero)).
Proof.
  destruct (last_accepted_set_wins bus_ratio_4_1) as [Hm _].
  destruct (last_accepted_set_wins bus_zero) as [_ Hl].
  split.
  - apply Hm. lia.
  - apply Hl. split; unfold Qle; simpl; lia.
Defined.

(** ** Registers stay bytes *)

Lemma bytes_ok_regs b b' : regs b = regs b' -> bytes_ok b -> bytes_ok b'.
Proof. intros E H r. unfold peek. rewrite <- E. apply H. Qed.

Lemma RWBits_set_bytes_ok f v b :
  fits_byte f -> bytes_ok b -> bytes_ok (snd (RWBits_set f v b)).
Proof.
  intros (Hl & Hw & Hfit) Hb r.
  rewrite RWBits_set_run. cbn [snd].
  destruct (Z.eq_dec (register_address f) r) as [<- | E].
  - rewrite peek_insert. apply insert_field_byte; auto.
  - rewrite peek_insert_ne by exact E. apply Hb.
Qed.

Lemma bus_zero_bytes_ok : bytes_ok bus_zero.
Proof. intros r. unfold peek, bus_zero. simpl. rewrite lookup_empty. simpl. lia. Qed.

(** X13.  Every declared field lies within its 8-bit register, and if every
    register holds a byte then it still does after any property set,
    whatever the value (a negative gain, a timing code past 63): no setter
    ever hands the bus a value that is not a byte. *)
Theorem setters_keep_registers_bytes (b : bus) :
  bytes_ok b ->
  (forall g, In g declared_fields -> fits_byte g) /\
  (forall v : Z, bytes_ok (snd (attack_time_setter v b))) /\
  (forall v : Z, bytes_ok (snd (release_time_setter v b))) /\
  (forall v : Z, bytes_ok (snd (hold_time_setter v b))) /\
  (forall v : Z, bytes_ok (snd (fixed_gain_setter v b))) /\
  (forall v : Q, bytes_ok (snd (output_limiter_level_setter v b))) /\
  (forall v : Z, bytes_ok (snd (max_gain_setter v b))) /\
  (forall (f : RWBits) (v : Z),
     In f declared_fields -> bytes_ok (snd (RWBits_set f v b))).
Proof.
  intros Hb.
  assert (Hraw : forall f v, In f declared_fields ->
                             bytes_ok (snd (RWBits_set f v b))).
  { intros f v Hf. apply RWBits_set_bytes_ok; [now apply declared_fields_fit | exact Hb]. }
  split; [exact declared_fields_fit |].
  split; [intros v; apply (Hraw _ v In_attack) |].
  split; [intros v; apply (Hraw _ v In_release) |].
  split; [intros v; apply (Hraw _ v In_hold) |].
  split; [| split; [| split; [| exact Hraw]]].
  - intros v.
    destruct (fixed_gain_setter_cases v b) as [[_ E] | (_ & _ & E)].
    + now rewrite E.
    + apply (bytes_ok_regs _ _ (eq_sym E)). apply (Hraw _ v In_gain).
  - intros v.
    destruct (output_limiter_level_setter_cases v b) as [[_ E] | [_ E]];
      rewrite E; [exact Hb | apply (Hraw _ _ In_limiter)].
  - intros v.
    destruct (max_gain_setter_cases v b) as [[_ E] | [_ E]];
      rewrite E; [exact Hb | apply (Hraw _ _ In_max_gain)].
Qed.

Lemma setters_keep_registers_bytes_witness :
  bytes_ok (snd (fixed_gain_setter (-16) bus_zero)).
Proof.
  destruct (setters_keep_registers_bytes bus_zero bus_zero_bytes_ok)
    as (_ & _ & _ & _ & H & _).
  apply H.
Defined.

(** ** Bus traffic of fixed_gain after a compression ratio was chosen *)

Lemma negative_gain_byte v :
  -28 <= v < 0 ->
  Z.land v 0xff = Z.lor (Z.land (Z.land v 0x3f) 0xff) 0xc0.
Proof.
  intros H.
  replace v with (- Z.of_nat (Z.to_nat (- v))) by lia.
  assert (Hn : (1 <= Z.to_nat (- v) <= 28)%nat) by lia.
  revert Hn. generalize (Z.to_nat (- v)). intros n Hn.
  destruct n as [| n]; [lia |].
  do 28 (destruct n as [| n]; [vm_compute; reflexivity |]).
  lia.
Qed.

(** X14.  After [compression_ratio] was set to one of the four settings, an
    accepted [fixed_gain] set reads register 0x07 and then, with the 1:1
    setting, reads and writes register 0x05 once; with any other setting it
    reads and writes register 0x05 twice, first with the gain masked to six
    bits and then with the raw gain.  The two bytes written are the same
    for a gain of 0 or more; for a negative gain the second is the first
    with bits 6 and 7 set. *)
Theorem fixed_gain_traffic_follows_compression_ratio (b : bus) (c v : Z) :
  In c [COMPRESSION_1_1; COMPRESSION_2_1; COMPRESSION_4_1; COMPRESSION_8_1] ->
  -28 <= v <= 30 ->
  let b1 := snd (RWBits_set compression_ratio c b) in
  let old := peek b 0x05 in
  let masked := insert_field _fixed_gain_control old (Z.land v 0x3f) in
  let new := insert_field _fixed_gain_control old v in
  emits (fixed_gain_setter v) b1
    (BusRead 0x07 (peek b1 0x07) ::
       (if c =? COMPRESSION_1_1
        then [BusRead 0x05 old; BusWrite 0x05 new]
        else [BusRead 0x05 old; BusWrite 0x05 masked;
              BusRead 0x05 masked; BusWrite 0x05 new])) /\
  (0 <= v -> new = masked) /\
  (v < 0 -> new = Z.lor masked 0xc0).
Proof.
  intros Hc Hv b1 old masked new.
  assert (Hsmall : 0 <= c <= 3).
  { simpl in Hc. unfold COMPRESSION_1_1, COMPRESSION_2_1, COMPRESSION_4_1,
      COMPRESSION_8_1 in Hc. intuition lia. }
  assert (Hf : field_of compression_ratio b1 = c).
  { unfold b1. rewrite field_of_after_set by (simpl; lia).
    apply Z.mod_small. simpl. lia. }
  assert (Hold : peek b1 0x05 = old).
  { unfold b1. apply (RWBits_set_frame compression_ratio). discriminate. }
  split; [| split].
  - unfold emits. rewrite (fixed_gain_setter_run v b1 Hv). cbn [snd log].
    rewrite Hf, Hold. fold masked. fold new. reflexivity.
  - intros Hpos. unfold new, masked.
    rewrite land_0x3f, Z.mod_small by lia. reflexivity.
  - intros Hneg. unfold new, masked, insert_field.
    cbn [lowest_bit _fixed_gain_control]. rewrite !Z.shiftl_0_r.
    rewrite (negative_gain_byte v) by lia.
    now rewrite Z.lor_assoc.
Qed.

Lemma fixed_gain_traffic_follows_compression_ratio_witness :
  let b1 := snd (RWBits_set compression_ratio COMPRESSION_2_1 bus_zero) in
  let old := peek bus_zero 0x05 in
  let masked := insert_field _fixed_gain_control old (Z.land (-28) 0x3f) in
  let new := insert_field _fixed_gain_control old (-28) in
  emits (fixed_gain_setter (-28)) b1
    (BusRead 0x07 (peek b1 0x07) ::
       (if COMPRESSION_2_1 =? COMPRESSION_1_1
        then [BusRead 0x05 old; BusWrite 0x05 new]
        else [BusRead 0x05 old; BusWrite 0x05 masked;
              BusRead 0x05 masked; BusWrite 0x05 new])) /\
  (0 <= -28 -> new = masked) /\
  (-28 < 0 -> new = Z.lor masked 0xc0).
Proof.
  apply (fixed_gain_traffic_follows_compression_ratio
           bus_zero COMPRESSION_2_1 (-28)).
  - simpl. tauto.
  - lia.
Defined.

(** With the ratio at 2:1 and a gain of -28 the two bytes written to
    register 0x05 are 0x24 and 0xe4. *)
Example fixed_gain_minus_28_at_2_1 :
  log (snd (fixed_gain_setter (-28)
              (Bus {[ 0x07 := COMPRESSION_2_1 ]} [])))
    = [BusRead 0x07 0x01; BusRead 0x05 0; BusWrite 0x05 0x24;
       BusRead 0x05 0x24; BusWrite 0x05 0xe4].
Proof. vm_compute. reflexivity. Qed.

(** ** Exactly the documented ranges are accepted *)

(** X15.  A validated setter returns normally exactly when its value is in range,
    bounds included, and this does not depend on the state of the device
    (in particular [fixed_gain] accepts negative gains whatever the
    compression ratio). *)
Theorem setters_accept_exactly_their_range (b : bus) :
  (forall v : Z, fst (fixed_gain_setter v b) = Return tt <-> -28 <= v <= 30) /\
  (forall v : Q,
     fst (output_limiter_level_setter v b) = Return tt
     <-> (- (13 # 2) <= v /\ v <= 9)%Q) /\
  (forall v : Z, fst (max_gain_setter v b) = Return tt <-> 18 <= v <= 30).
Proof.
  split; [| split]; intros v.
  - destruct (fixed_gain_setter_cases v b) as [[Hout E] | (Hin & E & _)].
    + rewrite E. cbn [fst]. split; [discriminate | contradiction].
    + now rewrite E.
  - destruct (output_limiter_level_setter_cases v b) as [[Hout E] | [Hin E]];
      rewrite E.
    + cbn [fst]. split; [discriminate | contradiction].
    + now rewrite RWBits_set_run.
  - destruct (max_gain_setter_cases v b) as [[Hout E] | [Hin E]]; rewrite E.
    + cbn [fst]. split; [discriminate | contradiction].
    + now rewrite RWBits_set_run.
Qed.

(** The bounds themselves are accepted. *)
Example range_bounds_are_accepted :
  fst (fixed_gain_setter (-28) bus_zero) = Return tt /\
  fst (fixed_gain_setter 30 bus_zero) = Return tt /\
  fst (output_limiter_level_setter (- (13 # 2)) bus_zero) = Return tt /\
  fst (output_limiter_level_setter 9 bus_zero) = Return tt /\
  fst (max_gain_setter 18 bus_zero) = Return tt /\
  fst (max_gain_setter 30 bus_zero) = Return tt.
Proof. repeat split. Qed.

(** ** The single bits do not disturb each other *)

Lemma declared_bit_cases f :
  In (as_bits f) declared_fields ->
  In f [speaker_enable_r; speaker_enable_l; amplifier_shutdown;
        reset_fault_r; reset_Fault_l; reset_thermal;
        noisegate_enable; output_limiter_disable].
Proof.
  destruct f as [r k]. unfold declared_fields, as_bits. simpl.
  intros H.
  repeat (destruct H as [H | H];
          [first [discriminate H | injection H as <- <-; tauto] |]).
  contradiction.
Qed.

(** X4.  Setting one of the eight declared single-bit properties leaves every
    other declared single-bit property reading what it read before. *)
Theorem bit_properties_are_independent (f g : RWBit) (on : bool) (b : bus) :
  In (as_bits f) declared_fields ->
  In (as_bits g) declared_fields ->
  f <> g ->
  fst (RWBit_get g (snd (RWBit_set f on b))) = fst (RWBit_get g b).
Proof.
  intros Hf Hg Hne.
  assert (Hov : overlap (as_bits f) (as_bits g) = false).
  { pose proof (declared_bit_cases f Hf) as Cf.
    pose proof (declared_bit_cases g Hg) as Cg.
    simpl in Cf, Cg.
    repeat (destruct Cf as [<- | Cf]); try contradiction;
      repeat (destruct Cg as [<- | Cg]); try contradiction;
      first [reflexivity | exfalso; apply Hne; reflexivity]. }
  unfold RWBit_get, RWBit_set, bind, ret. rewrite !RWBits_get_run. cbn [fst].
  rewrite (raw_setter_keeps _ _ _ b Hf Hg); [reflexivity | | exact Hov].
  destruct on; simpl; lia.
Qed.

Lemma bit_properties_are_independent_witness :
  fst (RWBit_get speaker_enable_r
         (snd (RWBit_set speaker_enable_l false bus_reg1)))
    = fst (RWBit_get speaker_enable_r bus_reg1).
Proof.
  apply (bit_properties_are_independent speaker_enable_l speaker_enable_r
           false bus_reg1).
  - unfold declared_fields. simpl. tauto.
  - unfold declared_fields. simpl. tauto.
  - discriminate.
Defined.
